(** * The Quizzler: the ChatKit bridge of [src/components/ChatKitPanel.tsx]

    A shallow embedding of the event handlers that [ChatKitPanel] registers
    with the widget SDK ([handleWidgetAction], [onClientTool], [onResponseEnd],
    [onError], [onLog]) together with the two pieces of component state they
    touch ([chatkitRef] and the [error] state cell).

    Every handler is a computation over a [World]: the component state plus the
    ordered trace of the calls the handler makes into its surroundings
    (the console, the SDK's [sendCustomAction], the host page's callbacks).

    Around the bridge: the configuration it is built from ([@/lib/config]),
    the [crypto.randomUUID] polyfill of the page layout, and the script that
    starts the backend. *)

From Stdlib Require Import String Ascii List Bool ZArith QArith.
From stdpp Require Import base option list strings gmap fin_maps.
Import ListNotations.

Local Close Scope Q_scope.

Local Open Scope string_scope.
Local Open Scope list_scope.

(** ** JavaScript values

    The SDK hands the bridge values typed [unknown] and
    [Record<string, unknown>].  Numbers are modelled as integers: the bridge
    never computes with them, it only tests values with [===] against string
    literals and with [instanceof Error]. *)

#[warnings="-register-all"]
Inductive JSValue : Type :=
| JSUndefined
| JSNull
| JSBool (b : bool)
| JSNumber (n : Z)
| JSString (s : string)
| JSArray (items : list JSValue)
| JSObject (props : gmap string JSValue)
| JSError (name message : string).   (* an instance of [Error] *)

(** [v === lit] for a string literal [lit]. *)
Definition strict_eq_string (v : JSValue) (lit : string) : bool :=
  match v with
  | JSString s => String.eqb s lit
  | _ => false
  end.

(** [obj.key] on a plain record: [undefined] when the key is absent. *)
Definition get_prop (obj : gmap string JSValue) (key : string) : JSValue :=
  match obj !! key with
  | Some v => v
  | None => JSUndefined
  end.

(** ** The data of the bridge *)

(** [ColorScheme] of [@/hooks/useColorScheme]: the string literal union
    ["light" | "dark"]. *)
Inductive ColorScheme : Type := light | dark.

Definition ColorScheme_string (c : ColorScheme) : string :=
  match c with
  | light => "light"
  | dark => "dark"
  end.

(** The narrowing of line 96: [requested === "light" || requested === "dark"]
    holds exactly when [requested] is a [ColorScheme], and then it is passed on
    as one. *)
Definition narrow_ColorScheme (requested : JSValue) : option ColorScheme :=
  if strict_eq_string requested "light" then Some light
  else if strict_eq_string requested "dark" then Some dark
  else None.

Module Action.
Record t : Type := mk {
  type : string;
  payload : option (gmap string JSValue);
}.
End Action.

Inductive Widget : Type :=
| Card (body : JSValue)
| ListView (body : JSValue).

Module WidgetItem.
Record t : Type := mk {
  id : string;
  widget : Widget;
}.
End WidgetItem.

Module Invocation.
Record t : Type := mk {
  name : string;
  params : gmap string JSValue;
}.
End Invocation.

Record ToolResult : Type := { success : bool }.

(** The object [useChatKit] returns, as far as the bridge uses it:
    [sendCustomAction action itemId] is [None] when the promise it returns is
    fulfilled and [Some e] when it is rejected with [e]. *)
Record ChatKit : Type := {
  sendCustomAction : Action.t -> string -> option JSValue;
}.

(** ** Effects *)

Inductive ConsoleLevel : Type := Log | Warn | Error | Debug.

Inductive Effect : Type :=
| EConsole (level : ConsoleLevel) (args : list JSValue)
| ESendCustomAction (action : Action.t) (itemId : string)
| EThemeRequest (scheme : ColorScheme)
| EResponseEnd.

Record World : Type := {
  chatkitRef : option ChatKit;     (* [chatkitRef.current] *)
  error : option string;           (* [useState<string | null>(null)] *)
  trace : list Effect;             (* calls made so far, oldest first *)
}.

(** How a call ends: it returns (for an [async] function, its promise is
    fulfilled) or it throws (the promise is rejected). *)
Inductive Outcome (A : Type) : Type :=
| Returned (a : A)
| Thrown (e : JSValue).
Arguments Returned {A} a.
Arguments Thrown {A} e.

Definition M (A : Type) : Type := World -> Outcome A * World.

Definition ret {A} (a : A) : M A := fun w => (Returned a, w).

Definition throw {A} (e : JSValue) : M A := fun w => (Thrown e, w).

Definition bind {A B} (m : M A) (k : A -> M B) : M B :=
  fun w =>
    match m w with
    | (Returned a, w') => k a w'
    | (Thrown e, w') => (Thrown e, w')
    end.

Declare Scope bridge_scope.
Delimit Scope bridge_scope with bridge.
Notation "'let*' x ':=' m 'in' k" := (bind m (fun x => k))
  (at level 10, x name, m at level 100, k at level 200) : bridge_scope.
Notation "m '>>' k" := (bind m (fun _ => k))
  (at level 90, right associativity) : bridge_scope.
Local Open Scope bridge_scope.

(** The world after one more call has been made. *)
Definition record_call (e : Effect) (w : World) : World :=
  {| chatkitRef := chatkitRef w; error := error w; trace := trace w ++ [e] |}.

Definition emit (e : Effect) : M unit :=
  fun w => (Returned tt, record_call e w).

Definition console (level : ConsoleLevel) (args : list JSValue) : M unit :=
  emit (EConsole level args).

Definition read_chatkitRef : M (option ChatKit) :=
  fun w => (Returned (chatkitRef w), w).

Definition write_chatkitRef (chatkit : ChatKit) : M unit :=
  fun w => (Returned tt,
            {| chatkitRef := Some chatkit; error := error w; trace := trace w |}).

Definition setError (message : string) : M unit :=
  fun w => (Returned tt,
            {| chatkitRef := chatkitRef w; error := Some message;
               trace := trace w |}).

(** [await chatkit.sendCustomAction(action, itemId)]: the call is made, and a
    rejected promise is rethrown by [await]. *)
Definition await_sendCustomAction
    (chatkit : ChatKit) (action : Action.t) (itemId : string) : M unit :=
  emit (ESendCustomAction action itemId) >>
  match sendCustomAction chatkit action itemId with
  | None => ret tt
  | Some e => throw e
  end.

(** The props [onThemeRequest] and [onResponseEnd] belong to the host page:
    a call is recorded and returns. *)
Definition onThemeRequest (scheme : ColorScheme) : M unit :=
  emit (EThemeRequest scheme).

Definition props_onResponseEnd : M unit := emit EResponseEnd.

(** ** The handlers *)

(** [const isDev = process.env.NODE_ENV !== "production"] *)
Definition isDev (NODE_ENV : option string) : bool :=
  match NODE_ENV with
  | Some v => negb (String.eqb v "production")
  | None => true
  end.

Definition payload_value (action : Action.t) : JSValue :=
  match Action.payload action with
  | Some p => JSObject p
  | None => JSUndefined
  end.

Definition invocation_value (invocation : Invocation.t) : JSValue :=
  JSObject (<["name" := JSString (Invocation.name invocation)]>
            (<["params" := JSObject (Invocation.params invocation)]> ∅)).

Definition handleWidgetAction
    (action : Action.t) (widgetItem : WidgetItem.t) : M unit :=
  let* chatkit := read_chatkitRef in
  match chatkit with
  | None => console Warn [JSString "ChatKit not initialized"]
  | Some chatkit =>
      console Log [JSString "[ChatKitPanel] Widget action received:";
                   JSString (Action.type action); payload_value action] >>
      if String.eqb (Action.type action) "quiz.submit"
         || String.eqb (Action.type action) "quiz.reset"
      then
        console Log [JSString ("[ChatKitPanel] Sending "
                               +:+ Action.type action +:+ " to server")] >>
        await_sendCustomAction chatkit action (WidgetItem.id widgetItem)
      else
        console Log [JSString "[ChatKitPanel] Unhandled action type:";
                     JSString (Action.type action)]
  end.

Definition onClientTool (isDev : bool) (invocation : Invocation.t)
    : M ToolResult :=
  (if isDev
   then console Log [JSString "[ChatKitPanel] Client tool invocation:";
                     invocation_value invocation]
   else ret tt) >>
  if String.eqb (Invocation.name invocation) "switch_theme" then
    let requested := get_prop (Invocation.params invocation) "theme" in
    match narrow_ColorScheme requested with
    | Some scheme =>
        onThemeRequest scheme >>
        ret {| success := true |}
    | None => ret {| success := false |}
    end
  else ret {| success := false |}.

Definition onResponseEnd : M unit := props_onResponseEnd.

(** [err instanceof Error] holds of the [JSError] values and of no others,
    and only then is [err.message] read. *)
Definition onError (err : JSValue) : M unit :=
  console Error [JSString "[ChatKitPanel] Error:"; err] >>
  match err with
  | JSError _ message => setError message
  | _ => ret tt
  end.

Definition onLog (isDev : bool) (name : string)
    (data : option (gmap string JSValue)) : M unit :=
  if isDev
  then console Debug [JSString "[chatkit]"; JSString name;
                      JSObject (match data with Some d => d | None => ∅ end)]
  else ret tt.

(** ** The component around the handlers *)

Module Overlay.
(** The props [ChatKitPanel] passes to [<ErrorOverlay>]. *)
Record props : Type := mk {
  error : option string;
  fallbackMessage : option string;
  onRetry : option (M unit);
  retryLabel : string;
}.

Inductive rendered : Type :=
| Nothing
| Message (text : string) (retryControl : option string).
End Overlay.

(** Lines 130-135: what the panel hands to the overlay on a render. *)
Definition overlay_props (w : World) : Overlay.props :=
  {| Overlay.error := error w;
     Overlay.fallbackMessage := None;
     Overlay.onRetry := None;
     Overlay.retryLabel := "Restart chat" |}.

(** Modelled from the spec: the component [ErrorOverlay] of
    [./ErrorOverlay], which [ChatKitPanel] imports and which is not among the
    sources.  It renders nothing when [error] is null; otherwise it renders the
    error text, and a control labelled [retryLabel] when [onRetry] is
    non-null. *)
Definition ErrorOverlay (p : Overlay.props) : Overlay.rendered :=
  match Overlay.error p with
  | None => Overlay.Nothing
  | Some text =>
      Overlay.Message text
        (match Overlay.onRetry p with
         | Some _ => Some (Overlay.retryLabel p)
         | None => None
         end)
  end.

(** The only way the overlay reaches back into the panel is the [onRetry] it
    was given. *)
Definition activate_retry : M unit :=
  fun w =>
    match Overlay.onRetry (overlay_props w) with
    | Some retry => retry w
    | None => (Returned tt, w)
    end.

(** Everything that can happen to a mounted panel. *)
Inductive BridgeEvent : Type :=
| Render (chatkit : ChatKit)        (* the component body runs: line 122 *)
| WidgetAction (action : Action.t) (widgetItem : WidgetItem.t)
| ClientTool (invocation : Invocation.t)
| ResponseEnd
| SdkError (err : JSValue)
| SdkLog (name : string) (data : option (gmap string JSValue))
| RetryActivated.

Definition dispatch (isDev : bool) (ev : BridgeEvent) : M unit :=
  match ev with
  | Render chatkit => write_chatkitRef chatkit
  | WidgetAction action widgetItem => handleWidgetAction action widgetItem
  | ClientTool invocation => onClientTool isDev invocation >> ret tt
  | ResponseEnd => onResponseEnd
  | SdkError err => onError err
  | SdkLog name data => onLog isDev name data
  | RetryActivated => activate_retry
  end.

(** A handler that throws (a rejected promise) does not stop the page: the
    next event is delivered to the world it left behind. *)
Fixpoint run (isDev : bool) (evs : list BridgeEvent) (w : World) : World :=
  match evs with
  | [] => w
  | ev :: rest => run isDev rest (snd (dispatch isDev ev w))
  end.

(** The state of the mount, before the first render. *)
Definition mount : World :=
  {| chatkitRef := None; error := None; trace := [] |}.

Inductive BridgeState : Type := Uninitialized | SessionReady | ErrorShown.

Definition bridge_state (w : World) : BridgeState :=
  match chatkitRef w, error w with
  | None, _ => Uninitialized
  | Some _, None => SessionReady
  | Some _, Some _ => ErrorShown
  end.

(** ** Reading a trace *)

Definition themeRequests (t : list Effect) : list ColorScheme :=
  omap (fun e => match e with EThemeRequest c => Some c | _ => None end) t.

Definition customActions (t : list Effect) : list (Action.t * string) :=
  omap (fun e => match e with
                 | ESendCustomAction a i => Some (a, i)
                 | _ => None
                 end) t.

Definition consoleEntries (t : list Effect)
    : list (ConsoleLevel * list JSValue) :=
  omap (fun e => match e with
                 | EConsole l args => Some (l, args)
                 | _ => None
                 end) t.

(** Some console entry of [t] has the string [ty] among its arguments. *)
Definition type_logged (ty : string) (t : list Effect) : bool :=
  existsb (fun entry => existsb (fun v => strict_eq_string v ty) (snd entry))
          (consoleEntries t).

(** The tool request that line 94-96 accept, if [invocation] is one. *)
Definition accepted_scheme (invocation : Invocation.t) : option ColorScheme :=
  if String.eqb (Invocation.name invocation) "switch_theme"
  then narrow_ColorScheme (get_prop (Invocation.params invocation) "theme")
  else None.

(** The world after the diagnostic of lines 90-92. *)
Definition after_dev_log (isDev : bool) (invocation : Invocation.t)
    (w : World) : World :=
  if isDev
  then record_call (EConsole Log [JSString "[ChatKitPanel] Client tool invocation:";
                                  invocation_value invocation]) w
  else w.

(** What [handleWidgetAction] writes to the console. *)
Definition received_entry (action : Action.t) : ConsoleLevel * list JSValue :=
  (Log, [JSString "[ChatKitPanel] Widget action received:";
         JSString (Action.type action); payload_value action]).

Definition sending_entry (action : Action.t) : ConsoleLevel * list JSValue :=
  (Log, [JSString ("[ChatKitPanel] Sending "
                   +:+ Action.type action +:+ " to server")]).

Definition unhandled_entry (action : Action.t) : ConsoleLevel * list JSValue :=
  (Log, [JSString "[ChatKitPanel] Unhandled action type:";
         JSString (Action.type action)]).

Definition not_initialized_entry : ConsoleLevel * list JSValue :=
  (Warn, [JSString "ChatKit not initialized"]).

Definition console_call (entry : ConsoleLevel * list JSValue) : Effect :=
  EConsole (fst entry) (snd entry).

(** ** What a session amounts to, read off its events *)

(** The test of line 48. *)
Definition forwardable (action : Action.t) : bool :=
  String.eqb (Action.type action) "quiz.submit"
  || String.eqb (Action.type action) "quiz.reset".

Definition has_handle (w : World) : bool :=
  match chatkitRef w with
  | Some _ => true
  | None => false
  end.

(** The forwarding calls a sequence of events should lead to: one for each
    whitelisted action that arrives once the panel has rendered. *)
Fixpoint expected_forwards (rendered : bool) (evs : list BridgeEvent)
    : list (Action.t * string) :=
  match evs with
  | [] => []
  | Render _ :: rest => expected_forwards true rest
  | WidgetAction action widgetItem :: rest =>
      (if rendered && forwardable action
       then [(action, WidgetItem.id widgetItem)]
       else [])
      ++ expected_forwards rendered rest
  | _ :: rest => expected_forwards rendered rest
  end.

Definition expected_theme_requests (evs : list BridgeEvent)
    : list ColorScheme :=
  omap (fun ev => match ev with
                  | ClientTool invocation => accepted_scheme invocation
                  | _ => None
                  end) evs.

(** The message of the latest [Error] instance reported, if any. *)
Fixpoint last_error (current : option string) (evs : list BridgeEvent)
    : option string :=
  match evs with
  | [] => current
  | SdkError (JSError _ message) :: rest => last_error (Some message) rest
  | _ :: rest => last_error current rest
  end.

Definition responseEnds (t : list Effect) : nat :=
  length (omap (fun e => match e with EResponseEnd => Some tt | _ => None end) t).

Definition is_ResponseEnd (ev : BridgeEvent) : bool :=
  match ev with
  | ResponseEnd => true
  | _ => false
  end.

Definition state_rank (s : BridgeState) : nat :=
  match s with
  | Uninitialized => 0
  | SessionReady => 1
  | ErrorShown => 2
  end.

(** ** Sample inputs *)

Definition healthy_chatkit : ChatKit :=
  {| sendCustomAction := fun _ _ => None |}.

Definition failing_chatkit : ChatKit :=
  {| sendCustomAction := fun _ _ => Some (JSError "TypeError" "Failed to fetch") |}.

Definition ready : World :=
  {| chatkitRef := Some healthy_chatkit; error := None; trace := [] |}.

Definition switch_to (v : JSValue) : Invocation.t :=
  Invocation.mk "switch_theme" (<["theme" := v]> ∅).

Definition quiz_submit : Action.t :=
  Action.mk "quiz.submit"
    (Some (<["answers" := JSArray [JSNumber 1; JSNumber 2; JSNumber 3]]> ∅)).

Definition quiz_unknown : Action.t := Action.mk "quiz.unknown" None.

Definition item_w1 : WidgetItem.t := WidgetItem.mk "w1" (Card JSNull).

Definition shown (message : string) : World :=
  {| chatkitRef := Some healthy_chatkit; error := Some message; trace := [] |}.

Definition busy_afternoon : list BridgeEvent :=
  [ Render failing_chatkit;
    WidgetAction quiz_submit item_w1;
    ClientTool (switch_to (JSString "dark"));
    SdkError (JSString "socket closed");
    SdkLog "thread.change" None;
    ResponseEnd;
    RetryActivated;
    WidgetAction quiz_unknown item_w1;
    SdkError JSUndefined;
    Render healthy_chatkit ].

(** * Configuration: [@/lib/config]

    Strings are sequences of code units below 256. *)

(** The code units below 256 that [String.prototype.trim] removes: TAB, LF,
    VT, FF, CR, SPACE and NO-BREAK SPACE. *)
Definition is_WhiteSpace (c : ascii) : bool :=
  let n := nat_of_ascii c in
  Nat.eqb n 9 || Nat.eqb n 10 || Nat.eqb n 11 || Nat.eqb n 12
  || Nat.eqb n 13 || Nat.eqb n 32 || Nat.eqb n 160.

Fixpoint trimStart (s : string) : string :=
  match s with
  | EmptyString => EmptyString
  | String c rest => if is_WhiteSpace c then trimStart rest else s
  end.

Fixpoint trimEnd (s : string) : string :=
  match s with
  | EmptyString => EmptyString
  | String c rest =>
      match trimEnd rest with
      | EmptyString => if is_WhiteSpace c then EmptyString else String c EmptyString
      | kept => String c kept
      end
  end.

Definition trim (s : string) : string := trimEnd (trimStart s).

(** [value?.trim() || fallback]: the fallback stands in for an undefined
    variable and for one whose trimmed value is the empty string. *)
Definition trimmed_or (value : option string) (fallback : string) : string :=
  match value with
  | None => fallback
  | Some v =>
      match trim v with
      | EmptyString => fallback
      | trimmed => trimmed
      end
  end.

Definition CHATKIT_API_URL (env : gmap string string) : string :=
  trimmed_or (env !! "NEXT_PUBLIC_CHATKIT_API_URL")
             "http://127.0.0.1:8087/chatkit".

Definition CHATKIT_API_DOMAIN_KEY (env : gmap string string) : string :=
  trimmed_or (env !! "NEXT_PUBLIC_CHATKIT_DOMAIN_KEY") "domain_pk_local_dev".

Definition getThemeConfig (theme : ColorScheme) : gmap string JSValue :=
  {[ "color" :=
       JSObject
         {[ "grayscale" :=
              JSObject
                {[ "hue" := JSNumber 220;
                   "tint" := JSNumber 6;
                   "shade" :=
                     JSNumber (if String.eqb (ColorScheme_string theme) "dark"
                               then -1 else -4) ]};
            "accent" :=
              JSObject
                {[ "primary" :=
                     JSString (if String.eqb (ColorScheme_string theme) "dark"
                               then "#f1f5f9" else "#0f172a");
                   "level" := JSNumber 1 ]} ]};
     "radius" := JSString "round" ]}.

(** [{ ...written, ...source }]: the keys of the object spread last win. *)
Definition spread_into (written source : gmap string JSValue)
    : gmap string JSValue :=
  source ∪ written.

(** The [theme] option of lines 65-69. *)
Definition theme_option (theme : ColorScheme) : gmap string JSValue :=
  spread_into
    {[ "colorScheme" := JSString (ColorScheme_string theme);
       "density" := JSString "spacious" ]}
    (getThemeConfig theme).

Definition all_WhiteSpace (s : string) : bool :=
  forallb is_WhiteSpace (list_ascii_of_string s).

Definition first_char (s : string) : option ascii :=
  match s with
  | EmptyString => None
  | String c _ => Some c
  end.

Fixpoint last_char (s : string) : option ascii :=
  match s with
  | EmptyString => None
  | String c EmptyString => Some c
  | String _ rest => last_char rest
  end.

(** Neither empty nor with white space at either end. *)
Definition tidy (s : string) : bool :=
  match first_char s, last_char s with
  | Some a, Some b => negb (is_WhiteSpace a) && negb (is_WhiteSpace b)
  | _, _ => false
  end.

(** * The [crypto.randomUUID] polyfill of [src/app/layout.tsx] *)

(** Truncation of a number towards zero. *)
Definition truncate (x : Q) : Z := Z.quot (Qnum x) (Z.pos (Qden x)).

(** [ToInt32]: truncate, then wrap into the signed 32-bit range. *)
Definition ToInt32 (x : Q) : Z :=
  let m := ((truncate x) mod 2 ^ 32)%Z in
  if (m <? 2 ^ 31)%Z then m else (m - 2 ^ 32)%Z.

Definition hex_digit (d : Z) : ascii :=
  match String.get (Z.to_nat d) "0123456789abcdef" with
  | Some c => c
  | None => "?"%char
  end.

Fixpoint hex_digits (fuel : nat) (n : Z) (acc : string) : string :=
  match fuel with
  | O => acc
  | S fuel' =>
      let acc' := String (hex_digit (n mod 16)%Z) acc in
      if (n / 16 =? 0)%Z then acc' else hex_digits fuel' (n / 16)%Z acc'
  end.

(** [v.toString(16)] for an integer [v]. *)
Definition toString16 (v : Z) : string :=
  if (v <? 0)%Z
  then String "-"%char (hex_digits (S (Z.to_nat (Z.log2 (- v)))) (- v)%Z "")
  else hex_digits (S (Z.to_nat (Z.log2 v))) v "".

(** The replacement function: [random] is what [Math.random()] returned.
    Multiplying a double by 16 is exact, so the product is the rational
    [random * 16]. *)
Definition random_16 (random : Q) : Z :=
  Z.lor (ToInt32 (random * 16)%Q) 0.               (* [Math.random()*16|0] *)

Definition uuid_digit (random : Q) (c : ascii) : string :=
  let r := random_16 random in
  toString16 (if Ascii.eqb c "x" then r else Z.lor (Z.land r 3) 8).

(** [template.replace(/[xy]/g, ...)]: [random k] is the result of the
    [k]-th call of [Math.random()], counting from [calls]. *)
Fixpoint replace_xy (template : string) (random : nat -> Q) (calls : nat)
    : string :=
  match template with
  | EmptyString => EmptyString
  | String c rest =>
      if Ascii.eqb c "x" || Ascii.eqb c "y"
      then uuid_digit (random calls) c +:+ replace_xy rest random (S calls)
      else String c (replace_xy rest random calls)
  end.

(** The template with its [x] and [y] filled in from the values
    [Math.random()*16|0] drawn, [digit k] being the [k]-th of them. *)
Fixpoint fill_template (template : string) (digit : nat -> Z) (calls : nat)
    : string :=
  match template with
  | EmptyString => EmptyString
  | String c rest =>
      if Ascii.eqb c "x"
      then String (hex_digit (digit calls))
             (fill_template rest digit (S calls))
      else if Ascii.eqb c "y"
      then String (hex_digit (Z.lor (Z.land (digit calls) 3) 8))
             (fill_template rest digit (S calls))
      else String c (fill_template rest digit calls)
  end.

Definition randomUUID (random : nat -> Q) : string :=
  replace_xy "xxxxxxxx-xxxx-4xxx-yxxx-xxxxxxxxxxxx" random 0.

Definition is_hex (c : ascii) : bool :=
  existsb (Ascii.eqb c) (list_ascii_of_string "0123456789abcdef").

(** One character against one position of the version-4 layout:
    [h] a hexadecimal digit, [v] one of [8 9 a b], anything else itself. *)
Definition fits (shape c : ascii) : bool :=
  if Ascii.eqb shape "h" then is_hex c
  else if Ascii.eqb shape "v"
       then existsb (Ascii.eqb c) (list_ascii_of_string "89ab")
       else Ascii.eqb shape c.

Fixpoint fits_all (shape s : string) : bool :=
  match shape, s with
  | EmptyString, EmptyString => true
  | String p shape', String c s' => fits p c && fits_all shape' s'
  | _, _ => false
  end.

(** [/^[0-9a-f]{8}-[0-9a-f]{4}-4[0-9a-f]{3}-[89ab][0-9a-f]{3}-[0-9a-f]{12}$/] *)
Definition is_uuid_v4 (s : string) : bool :=
  fits_all "hhhhhhhh-hhhh-4hhh-vhhh-hhhhhhhhhhhh" s.

(** What [typeof crypto.randomUUID] can find. *)
Inductive Member : Type :=
| Absent
| NotAFunction (v : JSValue)
| Native
| Polyfilled.

Definition is_function (m : Member) : bool :=
  match m with
  | Native | Polyfilled => true
  | _ => false
  end.

(** The global [crypto]: [None] when [typeof crypto === 'undefined']. *)
Definition install_polyfill (crypto : option Member) : option Member :=
  let crypto :=
    match crypto with
    | None => Some Absent                      (* [window.crypto = {}] *)
    | Some m => Some m
    end in
  match crypto with
  | Some m => if is_function m then Some m else Some Polyfilled
  | None => None
  end.

(** The variant that does not create [crypto]. *)
Definition install_polyfill_guarded (crypto : option Member) : option Member :=
  match crypto with
  | Some m => if is_function m then Some m else Some Polyfilled
  | None => None
  end.

(** A generator that always answers [q]. *)
Definition constant_random (q : Q) : nat -> Q := fun _ => q.

(** * The backend launcher: the shell script [src/unnamed/part_003]

    The script is run with an environment; [.env], when the file exists, is
    taken to be a list of plain assignments, which [source] applies on top of
    that environment.  Whether [command -v uv] succeeds depends on the
    environment it runs in (on [PATH]). *)

(** [${VAR:-fallback}]: the fallback stands in for an unset variable and for
    an empty one. *)
Definition param_default (value : option string) (fallback : string) : string :=
  match value with
  | Some v => if String.eqb v "" then fallback else v
  | None => fallback
  end.

(** [[ -z "$VAR" ]]: an unset variable expands to the empty string. *)
Definition test_z (value : option string) : bool :=
  match value with
  | Some v => String.eqb v ""
  | None => true
  end.

Inductive Command : Type :=
| UvSync                                  (* [uv sync] *)
| Uvicorn (host port : string).
  (* [uv run uvicorn app.main:app --reload --host "$host" --port "$port"] *)

Inductive Ending : Type :=
| Exit (status : nat)
| ServerStatus.          (* the status of the server, the last command *)

Record Launch : Type := {
  printed : list string;
  commands : list Command;
  ending : Ending;
}.

Definition starting_line (host port : string) : string :=
  "Starting Quiz Taker backend on http://" +:+ host +:+ ":" +:+ port.

Definition run_backend
    (has_uv : gmap string string -> bool)
    (dotenv : option (gmap string string))
    (env : gmap string string) : Launch :=
  let loaded :=
    match dotenv with
    | Some assignments =>
        (["Loading environment from .env file..."], assignments ∪ env)
    | None => ([], env)
    end in
  let env := snd loaded in
  if negb (has_uv env) then
    {| printed := fst loaded ++
         ["uv is not installed. Please install it: https://docs.astral.sh/uv/getting-started/installation/"];
       commands := [];
       ending := Exit 1 |}
  else if test_z (env !! "OPENAI_API_KEY") then
    {| printed := fst loaded ++
         ["Error: OPENAI_API_KEY environment variable is not set"];
       commands := [];
       ending := Exit 1 |}
  else
    let BACKEND_PORT := param_default (env !! "BACKEND_PORT") "8000" in
    let BACKEND_HOST := param_default (env !! "BACKEND_HOST") "127.0.0.1" in
    {| printed := fst loaded ++
         ["Installing dependencies...";
          starting_line BACKEND_HOST BACKEND_PORT];
       commands := [UvSync; Uvicorn BACKEND_HOST BACKEND_PORT];
       ending := ServerStatus |}.

Definition launched (l : Launch) : option (string * string) :=
  match commands l with
  | [UvSync; Uvicorn host port] => Some (host, port)
  | _ => None
  end.

Definition uv_everywhere : gmap string string -> bool := fun _ => true.

(** * Properties *)

(** ** Values and narrowing *)

Lemma strict_eq_string_true (v : JSValue) (lit : string) :
  strict_eq_string v lit = true <-> v = JSString lit.
Proof.
  destruct v; simpl; try (split; [discriminate | intros H; discriminate H]).
  rewrite String.eqb_eq. split; [intros -> | intros [= ->]]; reflexivity.
Qed.

Lemma narrow_ColorScheme_Some (v : JSValue) (c : ColorScheme) :
  narrow_ColorScheme v = Some c <-> v = JSString (ColorScheme_string c).
Proof.
  unfold narrow_ColorScheme. split.
  - destruct (strict_eq_string v "light") eqn:El.
    + intros [= <-]. now apply strict_eq_string_true.
    + destruct (strict_eq_string v "dark") eqn:Ed; [| discriminate].
      intros [= <-]. now apply strict_eq_string_true.
  - intros ->. destruct c; reflexivity.
Qed.

(** The narrowing succeeds exactly when the test of line 96 does. *)
Lemma narrow_ColorScheme_test (v : JSValue) :
  match narrow_ColorScheme v with Some _ => true | None => false end
  = strict_eq_string v "light" || strict_eq_string v "dark".
Proof.
  unfold narrow_ColorScheme.
  destruct (strict_eq_string v "light"); [reflexivity |].
  destruct (strict_eq_string v "dark"); reflexivity.
Qed.

Lemma get_prop_string (obj : gmap string JSValue) (key s : string) :
  get_prop obj key = JSString s <-> obj !! key = Some (JSString s).
Proof.
  unfold get_prop. destruct (obj !! key) as [v |].
  - split; [intros -> | intros [= ->]]; reflexivity.
  - split; discriminate.
Qed.

Lemma accepted_scheme_Some (invocation : Invocation.t) (c : ColorScheme) :
  accepted_scheme invocation = Some c <->
  Invocation.name invocation = "switch_theme" /\
  Invocation.params invocation !! "theme"
    = Some (JSString (ColorScheme_string c)).
Proof.
  unfold accepted_scheme.
  destruct (String.eqb_spec (Invocation.name invocation) "switch_theme")
    as [Hn | Hn].
  - rewrite narrow_ColorScheme_Some, get_prop_string. tauto.
  - split; [discriminate | intros [Hn' _]; contradiction].
Qed.

(** ** Traces *)

Lemma themeRequests_record (e : Effect) (w : World) :
  themeRequests (trace (record_call e w))
  = themeRequests (trace w)
    ++ match e with EThemeRequest c => [c] | _ => [] end.
Proof.
  unfold themeRequests. simpl. rewrite omap_app. destruct e; reflexivity.
Qed.

Lemma customActions_record (e : Effect) (w : World) :
  customActions (trace (record_call e w))
  = customActions (trace w)
    ++ match e with ESendCustomAction a i => [(a, i)] | _ => [] end.
Proof.
  unfold customActions. simpl. rewrite omap_app. destruct e; reflexivity.
Qed.

Lemma consoleEntries_record (e : Effect) (w : World) :
  consoleEntries (trace (record_call e w))
  = consoleEntries (trace w)
    ++ match e with EConsole l args => [(l, args)] | _ => [] end.
Proof.
  unfold consoleEntries. simpl. rewrite omap_app. destruct e; reflexivity.
Qed.

(** ** The client-tool dispatcher, run *)

Lemma onClientTool_run (isDev : bool) (invocation : Invocation.t) (w : World) :
  onClientTool isDev invocation w =
  match accepted_scheme invocation with
  | Some scheme =>
      (Returned {| success := true |},
       record_call (EThemeRequest scheme) (after_dev_log isDev invocation w))
  | None =>
      (Returned {| success := false |}, after_dev_log isDev invocation w)
  end.
Proof.
  unfold onClientTool, accepted_scheme, after_dev_log, bind.
  destruct isDev; simpl;
    destruct (String.eqb (Invocation.name invocation) "switch_theme");
    try reflexivity;
    destruct (narrow_ColorScheme _); reflexivity.
Qed.

Lemma after_dev_log_themeRequests isDev invocation w :
  themeRequests (trace (after_dev_log isDev invocation w))
  = themeRequests (trace w).
Proof.
  unfold after_dev_log. destruct isDev; [| reflexivity].
  rewrite themeRequests_record. apply app_nil_r.
Qed.

Lemma after_dev_log_customActions isDev invocation w :
  customActions (trace (after_dev_log isDev invocation w))
  = customActions (trace w).
Proof.
  unfold after_dev_log. destruct isDev; [| reflexivity].
  rewrite customActions_record. apply app_nil_r.
Qed.

Lemma after_dev_log_state isDev invocation w :
  chatkitRef (after_dev_log isDev invocation w) = chatkitRef w /\
  error (after_dev_log isDev invocation w) = error w.
Proof. unfold after_dev_log. destruct isDev; split; reflexivity. Qed.

(** C1. A [switch_theme] invocation whose [params.theme] is exactly ["light"]
    or exactly ["dark"] is answered with [{success: true}], and the theme
    callback [onThemeRequest] is called exactly once, with that value: the
    calls to it are those made before followed by this single one. *)
Theorem onClientTool_switch_theme_accepted
    (isDev : bool) (invocation : Invocation.t) (scheme : ColorScheme)
    (w : World) :
  Invocation.name invocation = "switch_theme" ->
  Invocation.params invocation !! "theme"
    = Some (JSString (ColorScheme_string scheme)) ->
  exists w',
    onClientTool isDev invocation w = (Returned {| success := true |}, w') /\
    themeRequests (trace w') = themeRequests (trace w) ++ [scheme].
Proof.
  intros Hname Htheme.
  assert (Hacc : accepted_scheme invocation = Some scheme)
    by (apply accepted_scheme_Some; split; assumption).
  rewrite onClientTool_run, Hacc.
  eexists. split; [reflexivity |].
  rewrite themeRequests_record, after_dev_log_themeRequests. reflexivity.
Qed.

Lemma onClientTool_switch_theme_accepted_witness :
  exists w',
    onClientTool true (switch_to (JSString "dark")) ready
      = (Returned {| success := true |}, w') /\
    themeRequests (trace w') = themeRequests (trace ready) ++ [dark].
Proof.
  apply (onClientTool_switch_theme_accepted true (switch_to (JSString "dark")) dark ready).
  - reflexivity.
  - vm_compute. reflexivity.
Defined.

(** C2. Every other invocation (another tool name, or [switch_theme] with a
    theme that is missing, not a string, empty or any other string) is
    answered with [{success: false}]; nothing is thrown, the theme callback is
    not called, no action is forwarded and the component state is as it
    was. *)
Theorem onClientTool_declined
    (isDev : bool) (invocation : Invocation.t) (w : World) :
  ~ (Invocation.name invocation = "switch_theme" /\
     (Invocation.params invocation !! "theme" = Some (JSString "light") \/
      Invocation.params invocation !! "theme" = Some (JSString "dark"))) ->
  exists w',
    onClientTool isDev invocation w = (Returned {| success := false |}, w') /\
    themeRequests (trace w') = themeRequests (trace w) /\
    customActions (trace w') = customActions (trace w) /\
    chatkitRef w' = chatkitRef w /\
    error w' = error w.
Proof.
  intros Hnot.
  assert (Hacc : accepted_scheme invocation = None).
  { destruct (accepted_scheme invocation) as [c |] eqn:E; [| reflexivity].
    apply accepted_scheme_Some in E as [Hn Ht].
    exfalso. apply Hnot. split; [assumption |].
    destruct c; [left | right]; exact Ht. }
  rewrite onClientTool_run, Hacc.
  eexists. split; [reflexivity |].
  rewrite after_dev_log_themeRequests, after_dev_log_customActions.
  destruct (after_dev_log_state isDev invocation w) as [-> ->].
  repeat split.
Qed.

Lemma onClientTool_declined_witness :
  exists w',
    onClientTool true (switch_to (JSString "blue")) ready
      = (Returned {| success := false |}, w') /\
    themeRequests (trace w') = themeRequests (trace ready) /\
    customActions (trace w') = customActions (trace ready) /\
    chatkitRef w' = chatkitRef ready /\
    error w' = error ready.
Proof.
  apply (onClientTool_declined true (switch_to (JSString "blue")) ready).
  intros [_ [H | H]]; vm_compute in H; discriminate H.
Defined.

(** C6. The dispatcher is total: whatever the invocation (any name, any
    params) and whatever the build mode, the call returns a [ToolResult]; it
    does not throw. *)
Theorem onClientTool_total
    (isDev : bool) (invocation : Invocation.t) (w : World) :
  exists (result : ToolResult) (w' : World),
    onClientTool isDev invocation w = (Returned result, w').
Proof.
  rewrite onClientTool_run.
  destruct (accepted_scheme invocation); eexists; eexists; reflexivity.
Qed.

(** C9. The development diagnostic changes nothing that matters: with the
    flag [isDev] on and with it off, an invocation gets the same outcome and
    the theme callback sees the same sequence of calls. *)
Theorem onClientTool_isDev_irrelevant (invocation : Invocation.t) (w : World) :
  fst (onClientTool true invocation w) = fst (onClientTool false invocation w) /\
  themeRequests (trace (snd (onClientTool true invocation w)))
  = themeRequests (trace (snd (onClientTool false invocation w))).
Proof.
  rewrite !onClientTool_run.
  destruct (accepted_scheme invocation); cbn [fst snd]; split; try reflexivity.
  - rewrite !themeRequests_record, !after_dev_log_themeRequests. reflexivity.
  - rewrite !after_dev_log_themeRequests. reflexivity.
Qed.

(** ** The action router, run *)

Lemma handleWidgetAction_no_handle
    (action : Action.t) (widgetItem : WidgetItem.t) (w : World) :
  chatkitRef w = None ->
  handleWidgetAction action widgetItem w
  = (Returned tt, record_call (console_call not_initialized_entry) w).
Proof.
  intros Href. unfold handleWidgetAction, bind, read_chatkitRef.
  rewrite Href. reflexivity.
Qed.

Lemma handleWidgetAction_whitelisted
    (action : Action.t) (widgetItem : WidgetItem.t) (chatkit : ChatKit)
    (w : World) :
  chatkitRef w = Some chatkit ->
  String.eqb (Action.type action) "quiz.submit"
  || String.eqb (Action.type action) "quiz.reset" = true ->
  handleWidgetAction action widgetItem w
  = (match sendCustomAction chatkit action (WidgetItem.id widgetItem) with
     | None => Returned tt
     | Some e => Thrown e
     end,
     record_call (ESendCustomAction action (WidgetItem.id widgetItem))
       (record_call (console_call (sending_entry action))
          (record_call (console_call (received_entry action)) w))).
Proof.
  intros Href Hty.
  unfold handleWidgetAction, bind, read_chatkitRef, await_sendCustomAction, bind.
  rewrite Href. cbn [console emit]. rewrite Hty. cbn [console emit].
  destruct (sendCustomAction chatkit action (WidgetItem.id widgetItem));
    reflexivity.
Qed.

Lemma handleWidgetAction_other
    (action : Action.t) (widgetItem : WidgetItem.t) (chatkit : ChatKit)
    (w : World) :
  chatkitRef w = Some chatkit ->
  String.eqb (Action.type action) "quiz.submit"
  || String.eqb (Action.type action) "quiz.reset" = false ->
  handleWidgetAction action widgetItem w
  = (Returned tt,
     record_call (console_call (unhandled_entry action))
       (record_call (console_call (received_entry action)) w)).
Proof.
  intros Href Hty.
  unfold handleWidgetAction, bind, read_chatkitRef.
  rewrite Href. cbn [console emit]. rewrite Hty. reflexivity.
Qed.

Lemma whitelist_test_true (ty : string) :
  ty = "quiz.submit" \/ ty = "quiz.reset" ->
  String.eqb ty "quiz.submit" || String.eqb ty "quiz.reset" = true.
Proof. intros [-> | ->]; reflexivity. Qed.

Lemma whitelist_test_false (ty : string) :
  ty <> "quiz.submit" -> ty <> "quiz.reset" ->
  String.eqb ty "quiz.submit" || String.eqb ty "quiz.reset" = false.
Proof.
  intros Hs Hr. apply orb_false_iff. split; apply String.eqb_neq; assumption.
Qed.

(** No branch of the router touches the component state. *)
Lemma handleWidgetAction_state
    (action : Action.t) (widgetItem : WidgetItem.t) (w : World) :
  chatkitRef (snd (handleWidgetAction action widgetItem w)) = chatkitRef w /\
  error (snd (handleWidgetAction action widgetItem w)) = error w.
Proof.
  destruct (chatkitRef w) as [chatkit |] eqn:Href.
  - destruct (String.eqb (Action.type action) "quiz.submit"
              || String.eqb (Action.type action) "quiz.reset") eqn:Hty.
    + rewrite (handleWidgetAction_whitelisted _ _ chatkit) by assumption.
      simpl. rewrite Href. split; reflexivity.
    + rewrite (handleWidgetAction_other _ _ chatkit) by assumption.
      simpl. rewrite Href. split; reflexivity.
  - rewrite handleWidgetAction_no_handle by assumption.
    simpl. rewrite Href. split; reflexivity.
Qed.

(** C3. With the session handle in place, an action of type ["quiz.submit"]
    or ["quiz.reset"] leads to exactly one [sendCustomAction] call, and that
    call carries the action and the widget item's id as they came in. *)
Theorem handleWidgetAction_forwards_once
    (action : Action.t) (widgetItem : WidgetItem.t) (chatkit : ChatKit)
    (w : World) :
  chatkitRef w = Some chatkit ->
  Action.type action = "quiz.submit" \/ Action.type action = "quiz.reset" ->
  customActions (trace (snd (handleWidgetAction action widgetItem w)))
  = customActions (trace w) ++ [(action, WidgetItem.id widgetItem)].
Proof.
  intros Href Hty.
  rewrite (handleWidgetAction_whitelisted _ _ chatkit)
    by (try apply whitelist_test_true; assumption).
  cbn [snd].
  rewrite !customActions_record. cbn [console_call].
  rewrite !app_nil_r. reflexivity.
Qed.

Lemma handleWidgetAction_forwards_once_witness :
  customActions (trace (snd (handleWidgetAction quiz_submit item_w1 ready)))
  = customActions (trace ready) ++ [(quiz_submit, "w1")].
Proof.
  apply (handleWidgetAction_forwards_once quiz_submit item_w1 healthy_chatkit ready).
  - reflexivity.
  - left. reflexivity.
Defined.

(** The forwarding call is awaited: when the SDK rejects it, the router's own
    promise is rejected with the same value. *)
Lemma handleWidgetAction_rejection_propagates
    (action : Action.t) (widgetItem : WidgetItem.t) (chatkit : ChatKit)
    (w : World) (e : JSValue) :
  chatkitRef w = Some chatkit ->
  Action.type action = "quiz.submit" \/ Action.type action = "quiz.reset" ->
  sendCustomAction chatkit action (WidgetItem.id widgetItem) = Some e ->
  fst (handleWidgetAction action widgetItem w) = Thrown e.
Proof.
  intros Href Hty Hrej.
  rewrite (handleWidgetAction_whitelisted _ _ chatkit)
    by (try apply whitelist_test_true; assumption).
  cbn [fst]. rewrite Hrej. reflexivity.
Qed.

(** C4, as the code has it. An action whose type is outside the whitelist is
    never forwarded and the router returns without throwing.  With the session
    handle in place the console gets the entry naming the unhandled type
    (after the entry that reports the action); without the handle it gets the
    "not initialized" warning alone. *)
Theorem handleWidgetAction_unknown_type
    (action : Action.t) (widgetItem : WidgetItem.t) (w : World) :
  Action.type action <> "quiz.submit" ->
  Action.type action <> "quiz.reset" ->
  exists w',
    handleWidgetAction action widgetItem w = (Returned tt, w') /\
    customActions (trace w') = customActions (trace w) /\
    consoleEntries (trace w')
    = consoleEntries (trace w)
      ++ match chatkitRef w with
         | Some _ => [received_entry action; unhandled_entry action]
         | None => [not_initialized_entry]
         end.
Proof.
  intros Hs Hr.
  pose proof (whitelist_test_false _ Hs Hr) as Hty.
  destruct (chatkitRef w) as [chatkit |] eqn:Href.
  - rewrite (handleWidgetAction_other _ _ chatkit) by assumption.
    eexists. split; [reflexivity |].
    rewrite !customActions_record, !consoleEntries_record.
    cbn [console_call]. rewrite !app_nil_r, <- app_assoc.
    split; reflexivity.
  - rewrite handleWidgetAction_no_handle by assumption.
    eexists. split; [reflexivity |].
    rewrite !customActions_record, !consoleEntries_record.
    cbn [console_call]. rewrite !app_nil_r.
    split; reflexivity.
Qed.

Lemma handleWidgetAction_unknown_type_witness :
  exists w',
    handleWidgetAction quiz_unknown item_w1 ready = (Returned tt, w') /\
    customActions (trace w') = customActions (trace ready) /\
    consoleEntries (trace w')
    = consoleEntries (trace ready)
      ++ [received_entry quiz_unknown; unhandled_entry quiz_unknown].
Proof.
  apply (handleWidgetAction_unknown_type quiz_unknown item_w1 ready);
    discriminate.
Defined.

(** C4, as stated, fails before the first render: the action
    [{type: "quiz.unknown"}] is outside the whitelist, yet the only console
    entry is the warning, which does not name the type. *)
Lemma handleWidgetAction_unknown_type_unlogged :
  Action.type quiz_unknown <> "quiz.submit" /\
  Action.type quiz_unknown <> "quiz.reset" /\
  consoleEntries (trace (snd (handleWidgetAction quiz_unknown item_w1 mount)))
  = [(Warn, [JSString "ChatKit not initialized"])] /\
  type_logged (Action.type quiz_unknown)
    (trace (snd (handleWidgetAction quiz_unknown item_w1 mount))) = false.
Proof.
  split; [discriminate |]. split; [discriminate |].
  split; vm_compute; reflexivity.
Qed.

(** C7. While the session handle is not there, any action, whitelisted or
    not, makes the router log the warning and return: the trace gains the
    one [console.warn] entry and nothing else, nothing is forwarded, nothing
    is thrown, and the component state is as it was. *)
Theorem handleWidgetAction_before_init
    (action : Action.t) (widgetItem : WidgetItem.t) (w : World) :
  chatkitRef w = None ->
  exists w',
    handleWidgetAction action widgetItem w = (Returned tt, w') /\
    trace w' = trace w ++ [EConsole Warn [JSString "ChatKit not initialized"]] /\
    consoleEntries (trace w')
    = consoleEntries (trace w)
      ++ [(Warn, [JSString "ChatKit not initialized"])] /\
    customActions (trace w') = customActions (trace w) /\
    chatkitRef w' = chatkitRef w /\
    error w' = error w.
Proof.
  intros Href. rewrite handleWidgetAction_no_handle by assumption.
  eexists. split; [reflexivity |].
  rewrite consoleEntries_record, customActions_record. cbn.
  rewrite app_nil_r. repeat split.
Qed.

Lemma handleWidgetAction_before_init_witness :
  exists w',
    handleWidgetAction quiz_submit item_w1 mount = (Returned tt, w') /\
    trace w' = trace mount ++ [EConsole Warn [JSString "ChatKit not initialized"]] /\
    consoleEntries (trace w')
    = consoleEntries (trace mount)
      ++ [(Warn, [JSString "ChatKit not initialized"])] /\
    customActions (trace w') = customActions (trace mount) /\
    chatkitRef w' = chatkitRef mount /\
    error w' = error mount.
Proof.
  apply (handleWidgetAction_before_init quiz_submit item_w1 mount).
  reflexivity.
Defined.

(** ** The error channel *)

Lemma onError_run (err : JSValue) (w : World) :
  onError err w =
  (Returned tt,
   let logged := record_call (EConsole Error [JSString "[ChatKitPanel] Error:"; err]) w in
   match err with
   | JSError _ message =>
       {| chatkitRef := chatkitRef logged; error := Some message;
          trace := trace logged |}
   | _ => logged
   end).
Proof. destruct err; reflexivity. Qed.

(** C5, as the code has it. When the SDK reports an [Error] instance while the
    session handle is in place, its [message] is stored in the error state,
    the bridge is in [ErrorShown], the overlay renders exactly that message
    (with no retry control), and the session handle is left where it was. *)
Theorem onError_Error_instance_shown
    (name message : string) (chatkit : ChatKit) (w : World) :
  chatkitRef w = Some chatkit ->
  exists w',
    onError (JSError name message) w = (Returned tt, w') /\
    error w' = Some message /\
    bridge_state w' = ErrorShown /\
    ErrorOverlay (overlay_props w') = Overlay.Message message None /\
    chatkitRef w' = Some chatkit.
Proof.
  intros Href. rewrite onError_run. eexists. split; [reflexivity |].
  unfold bridge_state, ErrorOverlay, overlay_props. cbn. rewrite Href.
  repeat split.
Qed.

Lemma onError_Error_instance_shown_witness :
  exists w',
    onError (JSError "Error" "Network request failed") ready = (Returned tt, w') /\
    error w' = Some "Network request failed" /\
    bridge_state w' = ErrorShown /\
    ErrorOverlay (overlay_props w')
    = Overlay.Message "Network request failed" None /\
    chatkitRef w' = Some healthy_chatkit.
Proof.
  apply (onError_Error_instance_shown
           "Error" "Network request failed" healthy_chatkit ready).
  reflexivity.
Defined.

(** C5, as stated, fails for an error event whose payload is a plain string:
    received in [SessionReady], it leaves the error state null, the bridge in
    [SessionReady], and the overlay renders nothing. *)
Lemma onError_string_payload_not_shown :
  bridge_state ready = SessionReady /\
  error (snd (onError (JSString "backend unreachable") ready)) = None /\
  bridge_state (snd (onError (JSString "backend unreachable") ready))
  = SessionReady /\
  ErrorOverlay (overlay_props (snd (onError (JSString "backend unreachable") ready)))
  = Overlay.Nothing.
Proof. repeat split; vm_compute; reflexivity. Qed.

(** C10. Every error event is written to the console with its payload and the
    handler returns.  A payload that is not an [Error] instance leaves the
    error state as it was; an [Error] instance puts its [message], and nothing
    else of it, into the error state.  The session handle is never touched. *)
Theorem onError_frame (err : JSValue) (w : World) :
  exists w',
    onError err w = (Returned tt, w') /\
    trace w' = trace w ++ [EConsole Error [JSString "[ChatKitPanel] Error:"; err]] /\
    error w' = match err with
               | JSError _ message => Some message
               | _ => error w
               end /\
    chatkitRef w' = chatkitRef w.
Proof.
  rewrite onError_run. eexists. split; [reflexivity |].
  destruct err; repeat split.
Qed.

(** ** The error state over a whole session *)

Lemma dispatch_keeps_error
    (isDev : bool) (ev : BridgeEvent) (w : World) (message : string) :
  error w = Some message ->
  exists message', error (snd (dispatch isDev ev w)) = Some message'.
Proof.
  intros Herr. destruct ev as [ck | a wi | inv | | err | name data |];
    cbn [dispatch].
  - exists message. exact Herr.
  - exists message.
    destruct (handleWidgetAction_state a wi w) as [_ ->]. exact Herr.
  - exists message. unfold bind. rewrite onClientTool_run.
    destruct (accepted_scheme inv); cbn;
      destruct (after_dev_log_state isDev inv w) as [_ ->]; exact Herr.
  - exists message. exact Herr.
  - rewrite onError_run. cbn [snd].
    destruct err; try (exists message; exact Herr).
    eexists. reflexivity.
  - exists message. unfold onLog. destruct isDev; exact Herr.
  - exists message. exact Herr.
Qed.

(** C8. Once the error state holds a string, it holds a string for the rest
    of the mount: no render, no handler and no activation of the overlay
    (whose [onRetry] is null) puts it back to null. *)
Theorem error_never_cleared
    (isDev : bool) (evs : list BridgeEvent) (w : World) (message : string) :
  error w = Some message ->
  exists message', error (run isDev evs w) = Some message'.
Proof.
  revert w message.
  induction evs as [| ev rest IH]; intros w message Herr; cbn [run].
  - exists message. exact Herr.
  - destruct (dispatch_keeps_error isDev ev w message Herr) as [m Hm].
    exact (IH _ m Hm).
Qed.

Lemma error_never_cleared_witness :
  exists message',
    error (run true busy_afternoon (shown "Network request failed"))
    = Some message'.
Proof.
  apply (error_never_cleared true busy_afternoon
           (shown "Network request failed") "Network request failed").
  reflexivity.
Defined.

(** ** The build mode *)

Example isDev_production : isDev (Some "production") = false.
Proof. reflexivity. Qed.

Example isDev_development : isDev (Some "development") = true.
Proof. reflexivity. Qed.

Example isDev_unset : isDev None = true.
Proof. reflexivity. Qed.

(** Whatever [NODE_ENV] two builds were made with, they answer an invocation
    alike and call the theme callback alike. *)
Lemma onClientTool_NODE_ENV_irrelevant
    (env1 env2 : option string) (invocation : Invocation.t) (w : World) :
  fst (onClientTool (isDev env1) invocation w)
  = fst (onClientTool (isDev env2) invocation w) /\
  themeRequests (trace (snd (onClientTool (isDev env1) invocation w)))
  = themeRequests (trace (snd (onClientTool (isDev env2) invocation w))).
Proof.
  rewrite !onClientTool_run.
  destruct (accepted_scheme invocation); cbn [fst snd]; split;
    rewrite ?themeRequests_record, ?after_dev_log_themeRequests; reflexivity.
Qed.

(** ** Scenarios *)

Example scenario_switch_to_dark :
  onClientTool false (switch_to (JSString "dark")) ready
  = (Returned {| success := true |}, record_call (EThemeRequest dark) ready).
Proof. vm_compute. reflexivity. Qed.

Example scenario_switch_to_light :
  onClientTool false (switch_to (JSString "light")) ready
  = (Returned {| success := true |}, record_call (EThemeRequest light) ready).
Proof. vm_compute. reflexivity. Qed.

Example scenario_switch_to_blue :
  onClientTool false (switch_to (JSString "blue")) ready
  = (Returned {| success := false |}, ready).
Proof. vm_compute. reflexivity. Qed.

Example scenario_switch_to_empty_string :
  onClientTool false (switch_to (JSString "")) ready
  = (Returned {| success := false |}, ready).
Proof. vm_compute. reflexivity. Qed.

Example scenario_switch_to_number :
  onClientTool false (switch_to (JSNumber 1)) ready
  = (Returned {| success := false |}, ready).
Proof. vm_compute. reflexivity. Qed.

Example scenario_switch_without_theme :
  onClientTool false (Invocation.mk "switch_theme" ∅) ready
  = (Returned {| success := false |}, ready).
Proof. vm_compute. reflexivity. Qed.

Example scenario_other_tool :
  onClientTool false
    (Invocation.mk "open_panel" (<["theme" := JSString "dark"]> ∅)) ready
  = (Returned {| success := false |}, ready).
Proof. vm_compute. reflexivity. Qed.

Example scenario_quiz_submit :
  customActions (trace (snd (handleWidgetAction quiz_submit item_w1 ready)))
  = [(quiz_submit, "w1")].
Proof. reflexivity. Qed.

Example scenario_quiz_submit_transport_failure :
  fst (handleWidgetAction quiz_submit item_w1
         {| chatkitRef := Some failing_chatkit; error := None; trace := [] |})
  = Thrown (JSError "TypeError" "Failed to fetch").
Proof. reflexivity. Qed.

Example scenario_quiz_unknown :
  consoleEntries (trace (snd (handleWidgetAction quiz_unknown item_w1 ready)))
  = [ (Log, [JSString "[ChatKitPanel] Widget action received:";
             JSString "quiz.unknown"; JSUndefined]);
      (Log, [JSString "[ChatKitPanel] Unhandled action type:";
             JSString "quiz.unknown"]) ] /\
  customActions (trace (snd (handleWidgetAction quiz_unknown item_w1 ready)))
  = [].
Proof. split; reflexivity. Qed.

Example scenario_first_render :
  bridge_state mount = Uninitialized /\
  bridge_state (run true [Render healthy_chatkit] mount) = SessionReady.
Proof. split; reflexivity. Qed.

Example scenario_busy_afternoon :
  error (run true busy_afternoon (shown "Network request failed"))
  = Some "Network request failed".
Proof. vm_compute. reflexivity. Qed.

(** * Whole sessions *)

(** ** One event at a time *)

Lemma dispatch_ClientTool_world
    (isDev : bool) (invocation : Invocation.t) (w : World) :
  snd (dispatch isDev (ClientTool invocation) w)
  = match accepted_scheme invocation with
    | Some scheme =>
        record_call (EThemeRequest scheme) (after_dev_log isDev invocation w)
    | None => after_dev_log isDev invocation w
    end.
Proof.
  cbn [dispatch]. unfold bind. rewrite onClientTool_run.
  destruct (accepted_scheme invocation); reflexivity.
Qed.

Lemma dispatch_SdkLog_world
    (isDev : bool) (name : string) (data : option (gmap string JSValue))
    (w : World) :
  snd (dispatch isDev (SdkLog name data) w)
  = if isDev
    then record_call
           (EConsole Debug [JSString "[chatkit]"; JSString name;
                            JSObject (match data with Some d => d | None => ∅ end)])
           w
    else w.
Proof. cbn [dispatch]. unfold onLog. destruct isDev; reflexivity. Qed.

Lemma dispatch_SdkError_world (isDev : bool) (err : JSValue) (w : World) :
  snd (dispatch isDev (SdkError err) w)
  = let logged :=
      record_call (EConsole Error [JSString "[ChatKitPanel] Error:"; err]) w in
    match err with
    | JSError _ message =>
        {| chatkitRef := chatkitRef logged; error := Some message;
           trace := trace logged |}
    | _ => logged
    end.
Proof. cbn [dispatch]. rewrite onError_run. reflexivity. Qed.

(** The three ways a widget action can go. *)
Lemma dispatch_WidgetAction_world
    (isDev : bool) (action : Action.t) (widgetItem : WidgetItem.t) (w : World) :
  snd (dispatch isDev (WidgetAction action widgetItem) w)
  = if has_handle w
    then
      if forwardable action
      then record_call (ESendCustomAction action (WidgetItem.id widgetItem))
             (record_call (console_call (sending_entry action))
                (record_call (console_call (received_entry action)) w))
      else record_call (console_call (unhandled_entry action))
             (record_call (console_call (received_entry action)) w)
    else record_call (console_call not_initialized_entry) w.
Proof.
  cbn [dispatch]. unfold has_handle, forwardable.
  destruct (chatkitRef w) as [ck |] eqn:Href.
  - destruct (String.eqb (Action.type action) "quiz.submit"
              || String.eqb (Action.type action) "quiz.reset") eqn:Hty.
    + rewrite (handleWidgetAction_whitelisted _ _ ck) by assumption.
      reflexivity.
    + rewrite (handleWidgetAction_other _ _ ck) by assumption. reflexivity.
  - rewrite handleWidgetAction_no_handle by assumption. reflexivity.
Qed.

Ltac event_cases dev ev :=
  destruct ev as [ck | a wi | inv | | err | name data |];
  [ cbn [dispatch write_chatkitRef snd]
  | rewrite dispatch_WidgetAction_world;
    destruct (has_handle _) eqn:?; [destruct (forwardable a) eqn:? |]
  | rewrite dispatch_ClientTool_world; destruct (accepted_scheme inv) eqn:?
  | cbn [dispatch onResponseEnd props_onResponseEnd emit snd]
  | rewrite dispatch_SdkError_world; cbv zeta; destruct err
  | rewrite dispatch_SdkLog_world; destruct dev
  | cbn [dispatch activate_retry overlay_props Overlay.onRetry snd] ].

Lemma dispatch_handle (isDev : bool) (ev : BridgeEvent) (w : World) :
  chatkitRef (snd (dispatch isDev ev w))
  = match ev with
    | Render chatkit => Some chatkit
    | _ => chatkitRef w
    end.
Proof.
  event_cases isDev ev; try reflexivity;
    apply (after_dev_log_state isDev inv w).
Qed.

Lemma dispatch_has_handle (isDev : bool) (ev : BridgeEvent) (w : World) :
  has_handle (snd (dispatch isDev ev w))
  = match ev with
    | Render _ => true
    | _ => has_handle w
    end.
Proof.
  unfold has_handle. rewrite dispatch_handle. destruct ev; reflexivity.
Qed.

Lemma dispatch_error (isDev : bool) (ev : BridgeEvent) (w : World) :
  error (snd (dispatch isDev ev w)) = last_error (error w) [ev].
Proof.
  event_cases isDev ev; try reflexivity;
    apply (after_dev_log_state isDev inv w).
Qed.

Lemma dispatch_customActions (isDev : bool) (ev : BridgeEvent) (w : World) :
  customActions (trace (snd (dispatch isDev ev w)))
  = customActions (trace w)
    ++ expected_forwards (has_handle w) [ev].
Proof.
  event_cases isDev ev; cbn [expected_forwards andb trace];
    rewrite ?customActions_record, ?after_dev_log_customActions;
    cbn [console_call];
    repeat match goal with H : _ = _ |- _ => rewrite H end;
    rewrite ?app_nil_r; reflexivity.
Qed.

Lemma dispatch_themeRequests (isDev : bool) (ev : BridgeEvent) (w : World) :
  themeRequests (trace (snd (dispatch isDev ev w)))
  = themeRequests (trace w) ++ expected_theme_requests [ev].
Proof.
  unfold expected_theme_requests.
  event_cases isDev ev; cbn [omap list_omap trace];
    rewrite ?themeRequests_record, ?after_dev_log_themeRequests;
    cbn [console_call];
    repeat match goal with H : _ = _ |- _ => rewrite H end;
    rewrite ?app_nil_r; reflexivity.
Qed.

Lemma dispatch_responseEnds (isDev : bool) (ev : BridgeEvent) (w : World) :
  responseEnds (trace (snd (dispatch isDev ev w)))
  = responseEnds (trace w) + (if is_ResponseEnd ev then 1 else 0).
Proof.
  assert (Hrec : forall e w0,
             responseEnds (trace (record_call e w0))
             = responseEnds (trace w0)
               + match e with EResponseEnd => 1 | _ => 0 end).
  { intros e w0. unfold responseEnds. cbn [record_call trace].
    rewrite omap_app, length_app. destruct e; reflexivity. }
  assert (Hlog : forall inv, responseEnds (trace (after_dev_log isDev inv w))
                             = responseEnds (trace w)).
  { intros inv. unfold after_dev_log. destruct isDev; [| reflexivity].
    rewrite Hrec. lia. }
  event_cases isDev ev; cbn [is_ResponseEnd trace];
    rewrite ?Hrec, ?Hlog; cbn [console_call]; lia.
Qed.

Lemma dispatch_outcome (isDev : bool) (ev : BridgeEvent) (w : World) :
  fst (dispatch isDev ev w)
  = match ev with
    | WidgetAction action widgetItem =>
        match chatkitRef w with
        | Some chatkit =>
            if forwardable action
            then match sendCustomAction chatkit action
                         (WidgetItem.id widgetItem) with
                 | Some e => Thrown e
                 | None => Returned tt
                 end
            else Returned tt
        | None => Returned tt
        end
    | _ => Returned tt
    end.
Proof.
  destruct ev as [ck | a wi | inv | | err | name data |]; cbn [dispatch].
  - reflexivity.
  - unfold forwardable. destruct (chatkitRef w) as [ck |] eqn:Href.
    + destruct (String.eqb (Action.type a) "quiz.submit"
                || String.eqb (Action.type a) "quiz.reset") eqn:Hty.
      * rewrite (handleWidgetAction_whitelisted _ _ ck) by assumption.
        cbn [fst]. destruct (sendCustomAction ck a (WidgetItem.id wi));
          reflexivity.
      * rewrite (handleWidgetAction_other _ _ ck) by assumption. reflexivity.
    + rewrite handleWidgetAction_no_handle by assumption. reflexivity.
  - unfold bind. rewrite onClientTool_run.
    destruct (accepted_scheme inv); reflexivity.
  - reflexivity.
  - rewrite onError_run. reflexivity.
  - unfold onLog. destruct isDev; reflexivity.
  - reflexivity.
Qed.

Lemma expected_forwards_cons
    (rendered : bool) (ev : BridgeEvent) (rest : list BridgeEvent) :
  expected_forwards rendered (ev :: rest)
  = expected_forwards rendered [ev]
    ++ expected_forwards (match ev with Render _ => true | _ => rendered end)
         rest.
Proof.
  destruct ev; cbn [expected_forwards]; rewrite ?app_nil_r; reflexivity.
Qed.

(** ** Sessions *)

(** X1. Whatever happens in a session (tool calls, errors, rejected forwards,
    re-renders), the backend is sent exactly the whitelisted actions that
    arrived after the first render, each once, in their order of arrival and
    with the action and item id as received. *)
Theorem run_forwards_exactly
    (isDev : bool) (evs : list BridgeEvent) (w : World) :
  customActions (trace (run isDev evs w))
  = customActions (trace w) ++ expected_forwards (has_handle w) evs.
Proof.
  revert w. induction evs as [| ev rest IH]; intros w; cbn [run].
  - cbn [expected_forwards]. rewrite app_nil_r. reflexivity.
  - rewrite IH, dispatch_customActions, dispatch_has_handle.
    rewrite (expected_forwards_cons _ ev rest), app_assoc. reflexivity.
Qed.

(** X2. Over a session the host's theme callback is called once for each
    accepted [switch_theme] invocation, in order, and for nothing else. *)
Theorem run_theme_requests_exactly
    (isDev : bool) (evs : list BridgeEvent) (w : World) :
  themeRequests (trace (run isDev evs w))
  = themeRequests (trace w) ++ expected_theme_requests evs.
Proof.
  revert w. induction evs as [| ev rest IH]; intros w; cbn [run].
  - unfold expected_theme_requests. cbn. rewrite app_nil_r. reflexivity.
  - rewrite IH, dispatch_themeRequests, <- app_assoc. f_equal.
    unfold expected_theme_requests. cbn [omap list_omap].
    destruct ev; try reflexivity.
    destruct (accepted_scheme invocation); reflexivity.
Qed.

(** X3. The error state after a session is the message of the latest error
    event that carried an [Error] instance; with no such event it is what it
    was at the start. *)
Theorem run_error_is_latest
    (isDev : bool) (evs : list BridgeEvent) (w : World) :
  error (run isDev evs w) = last_error (error w) evs.
Proof.
  revert w. induction evs as [| ev rest IH]; intros w; cbn [run].
  - reflexivity.
  - rewrite IH, dispatch_error. destruct ev; try reflexivity.
    destruct err; reflexivity.
Qed.

(** X4. The bridge only moves forward through
    [Uninitialized], [SessionReady], [ErrorShown]: no event takes it back to
    an earlier state. *)
Theorem bridge_state_only_advances
    (isDev : bool) (evs : list BridgeEvent) (w : World) :
  state_rank (bridge_state w)
  <= state_rank (bridge_state (run isDev evs w)).
Proof.
  revert w. induction evs as [| ev rest IH]; intros w; cbn [run].
  - lia.
  - etransitivity; [| apply IH].
    unfold bridge_state. rewrite dispatch_handle, dispatch_error.
    destruct ev; cbn [last_error]; try destruct err;
      destruct (chatkitRef w), (error w); cbn; lia.
Qed.

(** X5. A handler's promise is rejected in one situation only: a whitelisted
    action was forwarded and the SDK rejected the forwarding call; the value
    thrown is the SDK's. *)
Theorem dispatch_throws_only_on_rejected_forward
    (isDev : bool) (ev : BridgeEvent) (w : World) (e : JSValue) :
  fst (dispatch isDev ev w) = Thrown e <->
  exists action widgetItem chatkit,
    ev = WidgetAction action widgetItem /\
    chatkitRef w = Some chatkit /\
    (Action.type action = "quiz.submit" \/ Action.type action = "quiz.reset") /\
    sendCustomAction chatkit action (WidgetItem.id widgetItem) = Some e.
Proof.
  rewrite dispatch_outcome. split.
  - destruct ev as [ck | a wi | inv | | err | name data |];
      try discriminate.
    destruct (chatkitRef w) as [ck |] eqn:Href; [| discriminate].
    destruct (forwardable a) eqn:Hty; [| discriminate].
    destruct (sendCustomAction ck a (WidgetItem.id wi)) as [e' |] eqn:Hsend;
      [| discriminate].
    intros [= ->]. exists a, wi, ck. repeat split; try assumption.
    unfold forwardable in Hty. apply orb_true_iff in Hty.
    rewrite !String.eqb_eq in Hty. exact Hty.
  - intros (a & wi & ck & -> & Href & Hty & Hsend).
    rewrite Href. unfold forwardable.
    rewrite (whitelist_test_true _ Hty), Hsend. reflexivity.
Qed.

(** X6. The host is told of a finished response once per response-end event,
    and never otherwise. *)
Theorem run_response_ends
    (isDev : bool) (evs : list BridgeEvent) (w : World) :
  responseEnds (trace (run isDev evs w))
  = responseEnds (trace w) + length (List.filter is_ResponseEnd evs).
Proof.
  revert w. induction evs as [| ev rest IH]; intros w; cbn [run List.filter].
  - cbn. lia.
  - rewrite IH, dispatch_responseEnds.
    destruct (is_ResponseEnd ev); cbn [length]; lia.
Qed.

(** The SDK's log events reach the console only in a development build:
    there, each one is written as a single [console.debug] entry, with an
    empty object standing in for missing data; in production the handler
    does nothing at all.  In neither build does it touch the component
    state. *)
Theorem onLog_effect
    (isDev : bool) (name : string) (data : option (gmap string JSValue))
    (w : World) :
  exists w',
    onLog isDev name data w = (Returned tt, w') /\
    trace w'
    = trace w
      ++ (if isDev
          then [EConsole Debug
                  [JSString "[chatkit]"; JSString name;
                   JSObject (match data with Some d => d | None => ∅ end)]]
          else []) /\
    chatkitRef w' = chatkitRef w /\
    error w' = error w.
Proof.
  unfold onLog. destruct isDev; eexists; (split; [reflexivity |]).
  - repeat split.
  - cbn. rewrite app_nil_r. repeat split.
Qed.

(** * Configuration *)

(** ** Trimming *)

Lemma trimStart_first (s : string) (c : ascii) :
  first_char (trimStart s) = Some c -> is_WhiteSpace c = false.
Proof.
  induction s as [| a rest IH]; cbn [trimStart]; [discriminate |].
  destruct (is_WhiteSpace a) eqn:Ha; [exact IH |].
  cbn. intros [= <-]. exact Ha.
Qed.

Lemma trimEnd_last (s : string) (c : ascii) :
  last_char (trimEnd s) = Some c -> is_WhiteSpace c = false.
Proof.
  induction s as [| a rest IH]; cbn [trimEnd]; [discriminate |].
  destruct (trimEnd rest) as [| b kept] eqn:Hrest.
  - destruct (is_WhiteSpace a) eqn:Ha; [discriminate |].
    cbn. intros [= <-]. exact Ha.
  - exact IH.
Qed.

Lemma trimEnd_first (s : string) :
  trimEnd s <> EmptyString -> first_char (trimEnd s) = first_char s.
Proof.
  destruct s as [| a rest]; cbn [trimEnd]; [congruence |].
  destruct (trimEnd rest); [| reflexivity].
  destruct (is_WhiteSpace a); [congruence | reflexivity].
Qed.

Lemma last_char_None (s : string) : last_char s = None -> s = EmptyString.
Proof.
  induction s as [| a rest IH]; [reflexivity |].
  cbn [last_char]. destruct rest; [discriminate |].
  intros H. specialize (IH H). discriminate IH.
Qed.

Lemma trim_tidy (s : string) : trim s <> EmptyString -> tidy (trim s) = true.
Proof.
  intros Hne. unfold tidy.
  destruct (first_char (trim s)) as [a |] eqn:Hfirst.
  - destruct (last_char (trim s)) as [b |] eqn:Hlast.
    + unfold trim in *. rewrite (trimEnd_last _ _ Hlast).
      rewrite trimEnd_first in Hfirst by exact Hne.
      rewrite (trimStart_first _ _ Hfirst). reflexivity.
    + apply last_char_None in Hlast. contradiction.
  - destruct (trim s); [contradiction | discriminate].
Qed.

Lemma trimStart_fixed (s : string) (c : ascii) :
  first_char s = Some c -> is_WhiteSpace c = false -> trimStart s = s.
Proof.
  destruct s as [| a rest]; [reflexivity |].
  cbn. intros [= ->] ->. reflexivity.
Qed.

Lemma trimEnd_fixed (s : string) (c : ascii) :
  last_char s = Some c -> is_WhiteSpace c = false -> trimEnd s = s.
Proof.
  induction s as [| a rest IH]; [reflexivity |].
  cbn [last_char trimEnd]. destruct rest as [| b rest'].
  - intros [= ->] ->. reflexivity.
  - intros Hlast Hc. rewrite (IH Hlast Hc). reflexivity.
Qed.

Lemma trim_of_tidy (s : string) : tidy s = true -> trim s = s.
Proof.
  unfold tidy, trim.
  destruct (first_char s) as [a |] eqn:Hfirst; [| discriminate].
  destruct (last_char s) as [b |] eqn:Hlast; [| discriminate].
  rewrite andb_true_iff, !negb_true_iff. intros [Ha Hb].
  rewrite (trimStart_fixed _ _ Hfirst Ha). exact (trimEnd_fixed _ _ Hlast Hb).
Qed.

Lemma trimStart_split (s : string) :
  exists before,
    s = before +:+ trimStart s /\ all_WhiteSpace before = true.
Proof.
  induction s as [| a rest (before & Hsplit & Hws)]; cbn [trimStart].
  - exists EmptyString. split; reflexivity.
  - destruct (is_WhiteSpace a) eqn:Ha.
    + exists (String a before). split.
      * exact (f_equal (String a) Hsplit).
      * unfold all_WhiteSpace in *. cbn. rewrite Ha. exact Hws.
    + exists EmptyString. split; reflexivity.
Qed.

Lemma trimEnd_split (s : string) :
  exists after,
    s = trimEnd s +:+ after /\ all_WhiteSpace after = true.
Proof.
  induction s as [| a rest (after & Hsplit & Hws)]; cbn [trimEnd].
  - exists EmptyString. split; reflexivity.
  - destruct (trimEnd rest) as [| b kept] eqn:Hrest.
    + destruct (is_WhiteSpace a) eqn:Ha.
      * exists (String a after). split.
        -- exact (f_equal (String a) Hsplit).
        -- unfold all_WhiteSpace in *. cbn. rewrite Ha. exact Hws.
      * exists after. split; [| exact Hws].
        exact (f_equal (String a) Hsplit).
    + exists after. split; [| exact Hws].
      exact (f_equal (String a) Hsplit).
Qed.

Lemma all_WhiteSpace_trimStart (s : string) :
  all_WhiteSpace s = true -> trimStart s = EmptyString.
Proof.
  unfold all_WhiteSpace. induction s as [| a rest IH]; [reflexivity |].
  cbn. rewrite andb_true_iff. intros [-> Hrest]. exact (IH Hrest).
Qed.

Lemma trimEnd_empty (s : string) :
  trimEnd s = EmptyString -> all_WhiteSpace s = true.
Proof.
  unfold all_WhiteSpace. induction s as [| a rest IH]; [reflexivity |].
  cbn [trimEnd]. destruct (trimEnd rest); [| discriminate].
  destruct (is_WhiteSpace a) eqn:Ha; [| discriminate].
  intros _. cbn. rewrite Ha. exact (IH eq_refl).
Qed.

Lemma trimStart_not_all (s : string) :
  all_WhiteSpace s = false -> all_WhiteSpace (trimStart s) = false.
Proof.
  unfold all_WhiteSpace. induction s as [| a rest IH]; [discriminate |].
  cbn. destruct (is_WhiteSpace a) eqn:Ha; cbn.
  - exact IH.
  - intros _. rewrite Ha. reflexivity.
Qed.

Lemma trim_empty_iff (s : string) :
  trim s = EmptyString <-> all_WhiteSpace s = true.
Proof.
  unfold trim. split.
  - intros H. apply trimEnd_empty in H.
    destruct (all_WhiteSpace s) eqn:Hs; [reflexivity |].
    apply trimStart_not_all in Hs. congruence.
  - intros H. rewrite (all_WhiteSpace_trimStart _ H). reflexivity.
Qed.

(** X7. [trim] removes white space from the two ends and nothing else: the
    string is a run of white space, then the trimmed string, then a run of
    white space, and the trimmed string is either empty or has no white space
    at either end. *)
Theorem trim_decomposition (s : string) :
  exists before after,
    s = before +:+ trim s +:+ after /\
    all_WhiteSpace before = true /\
    all_WhiteSpace after = true /\
    (trim s = EmptyString \/ tidy (trim s) = true).
Proof.
  destruct (trimStart_split s) as (before & Hb & Hwb).
  destruct (trimEnd_split (trimStart s)) as (after & Ha & Hwa).
  exists before, after. repeat split; try assumption.
  - unfold trim. rewrite <- Ha. exact Hb.
  - destruct (trim s) eqn:Ht; [left; reflexivity |].
    right. rewrite <- Ht. apply trim_tidy. congruence.
Qed.

(** X8. The fallback is used exactly for a variable that is undefined, empty
    or made of white space only; any other value is used trimmed. *)
Theorem trimmed_or_cases (value : option string) (fallback : string) :
  trimmed_or value fallback
  = match value with
    | None => fallback
    | Some v => if all_WhiteSpace v then fallback else trim v
    end.
Proof.
  destruct value as [v |]; [| reflexivity]. cbn [trimmed_or].
  destruct (all_WhiteSpace v) eqn:Hws.
  - apply trim_empty_iff in Hws. rewrite Hws. reflexivity.
  - destruct (trim v) eqn:Ht; [| reflexivity].
    apply trim_empty_iff in Ht. congruence.
Qed.

Lemma trimmed_or_tidy (value : option string) (fallback : string) :
  tidy fallback = true -> tidy (trimmed_or value fallback) = true.
Proof.
  intros Hfb. destruct value as [v |]; [| exact Hfb]. cbn [trimmed_or].
  destruct (trim v) eqn:Ht; [exact Hfb |].
  rewrite <- Ht. apply trim_tidy. congruence.
Qed.

(** X9. Whatever the environment holds, the backend URL and the domain key
    handed to the SDK are never empty and never start or end with white
    space. *)
Theorem config_values_tidy (env : gmap string string) :
  tidy (CHATKIT_API_URL env) = true /\
  tidy (CHATKIT_API_DOMAIN_KEY env) = true.
Proof. split; apply trimmed_or_tidy; reflexivity. Qed.

(** X10. Reading the configuration is stable: putting the value that was read
    back into the environment and reading again gives the same value. *)
Theorem CHATKIT_API_URL_stable (env : gmap string string) :
  CHATKIT_API_URL
    (<["NEXT_PUBLIC_CHATKIT_API_URL" := CHATKIT_API_URL env]> env)
  = CHATKIT_API_URL env.
Proof.
  unfold CHATKIT_API_URL at 1. rewrite lookup_insert_eq. cbn [trimmed_or].
  assert (Htidy : tidy (CHATKIT_API_URL env) = true)
    by (apply trimmed_or_tidy; reflexivity).
  rewrite (trim_of_tidy _ Htidy).
  destruct (CHATKIT_API_URL env) eqn:Hurl; [discriminate Htidy | reflexivity].
Qed.

(** ** The theme option *)

(** X11. The session's theme option always carries the colour scheme it was
    built for and the "spacious" density: spreading [getThemeConfig] over them
    adds the colours and the radius and overwrites neither. *)
Theorem theme_option_fields (theme : ColorScheme) :
  theme_option theme !! "colorScheme"
  = Some (JSString (ColorScheme_string theme)) /\
  theme_option theme !! "density" = Some (JSString "spacious") /\
  theme_option theme !! "color" = getThemeConfig theme !! "color" /\
  theme_option theme !! "radius" = Some (JSString "round") /\
  size (theme_option theme) = 4.
Proof. destruct theme; repeat split; vm_compute; reflexivity. Qed.

(** X12. When the dispatcher accepts a [switch_theme] request, the scheme it
    hands to the host is the one that, passed back in as the [theme] prop,
    gives the session the colour scheme named in the request. *)
Theorem accepted_theme_reaches_session
    (isDev : bool) (invocation : Invocation.t) (w : World) :
  fst (onClientTool isDev invocation w) = Returned {| success := true |} ->
  exists scheme,
    themeRequests (trace (snd (onClientTool isDev invocation w)))
    = themeRequests (trace w) ++ [scheme] /\
    get_prop (theme_option scheme) "colorScheme"
    = get_prop (Invocation.params invocation) "theme".
Proof.
  rewrite onClientTool_run.
  destruct (accepted_scheme invocation) as [scheme |] eqn:Hacc;
    [| discriminate].
  intros _. exists scheme. cbn [snd]. split.
  - rewrite themeRequests_record, after_dev_log_themeRequests. reflexivity.
  - apply accepted_scheme_Some in Hacc as [_ Htheme].
    unfold get_prop at 2. rewrite Htheme.
    destruct scheme; vm_compute; reflexivity.
Qed.

Lemma accepted_theme_reaches_session_witness :
  exists scheme,
    themeRequests
      (trace (snd (onClientTool false (switch_to (JSString "dark")) ready)))
    = themeRequests (trace ready) ++ [scheme] /\
    get_prop (theme_option scheme) "colorScheme"
    = get_prop (Invocation.params (switch_to (JSString "dark"))) "theme".
Proof.
  apply (accepted_theme_reaches_session
           false (switch_to (JSString "dark")) ready).
  vm_compute. reflexivity.
Defined.

(** X13. The two colour schemes never get the same colours: a change of
    scheme always changes the configuration. *)
Theorem getThemeConfig_injective (a b : ColorScheme) :
  getThemeConfig a = getThemeConfig b -> a = b.
Proof.
  intros H.
  assert (Hshade :
            match get_prop (getThemeConfig a) "color" with
            | JSObject color =>
                match get_prop color "accent" with
                | JSObject accent => get_prop accent "primary"
                | _ => JSUndefined
                end
            | _ => JSUndefined
            end
            = match get_prop (getThemeConfig b) "color" with
              | JSObject color =>
                  match get_prop color "accent" with
                  | JSObject accent => get_prop accent "primary"
                  | _ => JSUndefined
                  end
              | _ => JSUndefined
              end) by (rewrite H; reflexivity).
  destruct a, b; try reflexivity; vm_compute in Hshade; discriminate Hshade.
Qed.

Lemma getThemeConfig_injective_witness : dark = dark.
Proof. apply (getThemeConfig_injective dark dark). reflexivity. Defined.

(** * The polyfill *)

(** ** One digit *)

Lemma ToInt32_random_16 (q : Q) :
  (0 <= q)%Q -> (q < 1)%Q ->
  (0 <= random_16 q < 16)%Z.
Proof.
  intros Hlo Hhi. unfold random_16. rewrite Z.lor_0_r.
  destruct q as [n d]. unfold Qle, Qlt in *. cbn in Hlo, Hhi.
  unfold ToInt32, truncate. cbn [Qmult Qnum Qden].
  assert (Hn : (0 <= n)%Z) by lia.
  assert (Hd : (n < Z.pos d)%Z) by lia.
  replace (Z.pos (d * 1)) with (Z.pos d) by lia.
  rewrite Z.quot_div_nonneg by lia.
  assert (Hq : (0 <= n * 16 / Z.pos d < 16)%Z).
  { split.
    - apply Z.div_pos; lia.
    - apply Z.div_lt_upper_bound; lia. }
  rewrite Z.mod_small by lia.
  destruct (Z.ltb_spec (n * 16 / Z.pos d) (2 ^ 31)); lia.
Qed.

Lemma nibble_cases (v : Z) (P : Z -> Prop) :
  (0 <= v < 16)%Z ->
  P 0%Z -> P 1%Z -> P 2%Z -> P 3%Z -> P 4%Z -> P 5%Z -> P 6%Z -> P 7%Z ->
  P 8%Z -> P 9%Z -> P 10%Z -> P 11%Z -> P 12%Z -> P 13%Z -> P 14%Z ->
  P 15%Z -> P v.
Proof.
  intros Hv. intros.
  assert (Hcases : (v = 0 \/ v = 1 \/ v = 2 \/ v = 3 \/ v = 4 \/ v = 5
                    \/ v = 6 \/ v = 7 \/ v = 8 \/ v = 9 \/ v = 10 \/ v = 11
                    \/ v = 12 \/ v = 13 \/ v = 14 \/ v = 15)%Z) by lia.
  repeat (destruct Hcases as [-> | Hcases]; [assumption |]).
  subst v. assumption.
Qed.

Lemma toString16_nibble (v : Z) :
  (0 <= v < 16)%Z -> toString16 v = String (hex_digit v) EmptyString.
Proof. intros Hv. apply (nibble_cases v); [exact Hv | reflexivity ..]. Qed.

Lemma is_hex_hex_digit (v : Z) :
  (0 <= v < 16)%Z -> is_hex (hex_digit v) = true.
Proof. intros Hv. apply (nibble_cases v); [exact Hv | reflexivity ..]. Qed.

Lemma variant_bits (r : Z) :
  (0 <= r < 16)%Z -> (8 <= Z.lor (Z.land r 3) 8 < 12)%Z.
Proof.
  intros Hr.
  apply (nibble_cases r);
    [exact Hr | (vm_compute; split; [discriminate | reflexivity]) ..].
Qed.

Lemma variant_hex_digit (v : Z) :
  (8 <= v < 12)%Z ->
  existsb (Ascii.eqb (hex_digit v)) (list_ascii_of_string "89ab") = true.
Proof.
  intros Hv.
  assert (Hcases : (v = 8 \/ v = 9 \/ v = 10 \/ v = 11)%Z) by lia.
  destruct Hcases as [-> | [-> | [-> | ->]]]; reflexivity.
Qed.

Lemma uuid_digit_x (q : Q) :
  (0 <= q)%Q -> (q < 1)%Q ->
  exists d, uuid_digit q "x" = String d EmptyString /\ is_hex d = true.
Proof.
  intros Hlo Hhi. pose proof (ToInt32_random_16 q Hlo Hhi) as Hr.
  unfold uuid_digit. cbn [Ascii.eqb Bool.eqb]. cbv zeta.
  rewrite toString16_nibble by exact Hr.
  eexists. split; [reflexivity |]. apply is_hex_hex_digit. exact Hr.
Qed.

Lemma uuid_digit_y (q : Q) :
  (0 <= q)%Q -> (q < 1)%Q ->
  exists d,
    uuid_digit q "y" = String d EmptyString /\
    existsb (Ascii.eqb d) (list_ascii_of_string "89ab") = true.
Proof.
  intros Hlo Hhi. pose proof (ToInt32_random_16 q Hlo Hhi) as Hr.
  pose proof (variant_bits _ Hr) as Hv.
  unfold uuid_digit. cbn [Ascii.eqb Bool.eqb]. cbv zeta.
  rewrite toString16_nibble by lia.
  eexists. split; [reflexivity |]. apply variant_hex_digit. exact Hv.
Qed.

(** ** The whole identifier *)

Lemma replace_xy_x (rest : string) (random : nat -> Q) (calls : nat) :
  (0 <= random calls)%Q -> (random calls < 1)%Q ->
  exists d,
    replace_xy (String "x" rest) random calls
    = String d (replace_xy rest random (S calls)) /\
    fits "h" d = true.
Proof.
  intros Hlo Hhi. destruct (uuid_digit_x _ Hlo Hhi) as (d & Hd & Hhex).
  exists d. split; [| exact Hhex].
  cbn [replace_xy Ascii.eqb Bool.eqb orb andb]. rewrite Hd. reflexivity.
Qed.

Lemma replace_xy_y (rest : string) (random : nat -> Q) (calls : nat) :
  (0 <= random calls)%Q -> (random calls < 1)%Q ->
  exists d,
    replace_xy (String "y" rest) random calls
    = String d (replace_xy rest random (S calls)) /\
    fits "v" d = true.
Proof.
  intros Hlo Hhi. destruct (uuid_digit_y _ Hlo Hhi) as (d & Hd & Hvar).
  exists d. split; [| exact Hvar].
  cbn [replace_xy Ascii.eqb Bool.eqb orb andb]. rewrite Hd. reflexivity.
Qed.

Lemma replace_xy_literal
    (c : ascii) (rest : string) (random : nat -> Q) (calls : nat) :
  Ascii.eqb c "x" || Ascii.eqb c "y" = false ->
  replace_xy (String c rest) random calls
  = String c (replace_xy rest random calls).
Proof. intros H. cbn [replace_xy]. rewrite H. reflexivity. Qed.

Ltac next_digit Hrange :=
  match goal with
  | |- context [replace_xy (String "x" ?rest) ?random ?calls] =>
      let d := fresh "d" in
      let Hd := fresh "Hd" in
      let Hfit := fresh "Hfit" in
      destruct (replace_xy_x rest random calls
                  (proj1 (Hrange calls)) (proj2 (Hrange calls)))
        as (d & Hd & Hfit);
      rewrite Hd; clear Hd
  | |- context [replace_xy (String "y" ?rest) ?random ?calls] =>
      let d := fresh "d" in
      let Hd := fresh "Hd" in
      let Hfit := fresh "Hfit" in
      destruct (replace_xy_y rest random calls
                  (proj1 (Hrange calls)) (proj2 (Hrange calls)))
        as (d & Hd & Hfit);
      rewrite Hd; clear Hd
  | |- context [replace_xy (String ?c ?rest) ?random ?calls] =>
      rewrite (replace_xy_literal c rest random calls eq_refl)
  end.

(** X14. Whatever [Math.random] returns, the identifier produced is a
    well-formed version-4 UUID: 36 characters, hyphens after the 8th, 12th,
    16th and 20th digit, lower-case hexadecimal digits elsewhere, the version
    digit [4] and a variant digit among [8 9 a b]. *)
Theorem randomUUID_is_v4 (random : nat -> Q) :
  (forall k, (0 <= random k)%Q /\ (random k < 1)%Q) ->
  is_uuid_v4 (randomUUID random) = true /\
  String.length (randomUUID random) = 36.
Proof.
  intros Hrange. unfold randomUUID, is_uuid_v4.
  repeat next_digit Hrange.
  cbn [replace_xy fits_all String.length].
  repeat match goal with H : fits _ _ = true |- _ => rewrite H; clear H end.
  split; reflexivity.
Qed.

Lemma randomUUID_is_v4_witness :
  is_uuid_v4 (randomUUID (constant_random (1 # 2))) = true /\
  String.length (randomUUID (constant_random (1 # 2))) = 36.
Proof.
  apply (randomUUID_is_v4 (constant_random (1 # 2))).
  intros k. split; [discriminate | reflexivity].
Defined.



(** ** Nothing of the randomness is lost *)

Lemma hex_digit_injective (a b : Z) :
  (0 <= a < 16)%Z -> (0 <= b < 16)%Z -> hex_digit a = hex_digit b -> a = b.
Proof.
  intros Ha Hb.
  apply (nibble_cases a (fun a => hex_digit a = hex_digit b -> a = b));
    [exact Ha | ..];
    apply (nibble_cases b); try exact Hb;
    intros H; first [reflexivity | discriminate H].
Qed.

Lemma variant_bits_injective (r r' : Z) :
  (0 <= r < 16)%Z -> (0 <= r' < 16)%Z ->
  Z.lor (Z.land r 3) 8 = Z.lor (Z.land r' 3) 8 -> Z.land r 3 = Z.land r' 3.
Proof.
  intros Hr Hr'.
  apply (nibble_cases r
           (fun r => Z.lor (Z.land r 3) 8 = Z.lor (Z.land r' 3) 8 ->
                     Z.land r 3 = Z.land r' 3));
    [exact Hr | ..];
    apply (nibble_cases r'); try exact Hr';
    intros H; first [reflexivity | discriminate H].
Qed.

Lemma replace_xy_fill (template : string) (random : nat -> Q) (calls : nat) :
  (forall k, (0 <= random k)%Q /\ (random k < 1)%Q) ->
  replace_xy template random calls
  = fill_template template (fun k => random_16 (random k)) calls.
Proof.
  intros Hrange. revert calls.
  induction template as [| c rest IH]; intros calls; [reflexivity |].
  cbn [replace_xy fill_template].
  destruct (Hrange calls) as [Hlo Hhi].
  pose proof (ToInt32_random_16 _ Hlo Hhi) as Hr.
  pose proof (variant_bits _ Hr) as Hv.
  unfold uuid_digit. cbv zeta.
  destruct (Ascii.eqb c "x") eqn:Hx; cbn [orb].
  - rewrite toString16_nibble by exact Hr. rewrite IH. reflexivity.
  - destruct (Ascii.eqb c "y") eqn:Hy.
    + rewrite toString16_nibble by lia. rewrite IH. reflexivity.
    + rewrite IH. reflexivity.
Qed.

Lemma String_injective (a b : ascii) (s t : string) :
  String a s = String b t -> a = b /\ s = t.
Proof. intros [= -> ->]. split; reflexivity. Qed.

Lemma fill_template_injective (n n' : nat -> Z) :
  (forall k, (0 <= n k < 16)%Z) ->
  (forall k, (0 <= n' k < 16)%Z) ->
  fill_template "xxxxxxxx-xxxx-4xxx-yxxx-xxxxxxxxxxxx" n 0
  = fill_template "xxxxxxxx-xxxx-4xxx-yxxx-xxxxxxxxxxxx" n' 0 ->
  forall k, k < 31 ->
    if Nat.eqb k 15
    then Z.land (n k) 3 = Z.land (n' k) 3
    else n k = n' k.
Proof.
  intros Hbound Hbound' Heq.
  cbn [fill_template Ascii.eqb Bool.eqb andb] in Heq.
  repeat match type of Heq with
         | String _ _ = String _ _ =>
             apply String_injective in Heq;
             let Hc := fresh "Hc" in destruct Heq as [Hc Heq]
         end.
  clear Heq. intros k Hk.
  do 31 (destruct k as [| k];
         [ cbn [Nat.eqb];
           match goal with
           | H : hex_digit ?a = hex_digit ?b |- ?a = ?b =>
               exact (hex_digit_injective a b (Hbound _) (Hbound' _) H)
           | H : hex_digit (Z.lor (Z.land ?a 3) 8)
                 = hex_digit (Z.lor (Z.land ?b 3) 8)
             |- Z.land ?a 3 = Z.land ?b 3 =>
               pose proof (variant_bits a (Hbound _)) as Hva;
               pose proof (variant_bits b (Hbound' _)) as Hvb;
               apply (variant_bits_injective a b (Hbound _) (Hbound' _));
               apply hex_digit_injective; [lia | lia | exact H]
           end
         | ]).
  exfalso. clear - Hk. lia.
Qed.

Lemma randomUUID_fill (random : nat -> Q) :
  (forall k, (0 <= random k)%Q /\ (random k < 1)%Q) ->
  randomUUID random
  = fill_template "xxxxxxxx-xxxx-4xxx-yxxx-xxxxxxxxxxxx"
      (fun k => random_16 (random k)) 0.
Proof. intros Hrange. exact (replace_xy_fill _ random 0 Hrange). Qed.

(** X16. Two identifiers are equal only if they were made from the same
    digits: every one of the 30 [x] positions gives back the value
    [Math.random()*16|0] it was made from, and the [y] position gives back its
    two low bits.  So all 122 random bits show in the identifier. *)
Theorem randomUUID_keeps_randomness (random random' : nat -> Q) :
  (forall k, (0 <= random k)%Q /\ (random k < 1)%Q) ->
  (forall k, (0 <= random' k)%Q /\ (random' k < 1)%Q) ->
  randomUUID random = randomUUID random' ->
  forall k, k < 31 ->
    if Nat.eqb k 15
    then Z.land (random_16 (random k)) 3 = Z.land (random_16 (random' k)) 3
    else random_16 (random k) = random_16 (random' k).
Proof.
  intros Hrange Hrange' Heq.
  apply (fill_template_injective
           (fun k => random_16 (random k)) (fun k => random_16 (random' k))).
  - intros k. apply ToInt32_random_16; apply Hrange.
  - intros k. apply ToInt32_random_16; apply Hrange'.
  - rewrite <- (randomUUID_fill random Hrange),
      <- (randomUUID_fill random' Hrange').
    exact Heq.
Qed.

Lemma randomUUID_keeps_randomness_witness :
  if Nat.eqb 3 15
  then Z.land (random_16 (constant_random (1 # 2) 3)) 3
       = Z.land (random_16 (constant_random (17 # 32) 3)) 3
  else random_16 (constant_random (1 # 2) 3)
       = random_16 (constant_random (17 # 32) 3).
Proof.
  apply (randomUUID_keeps_randomness
           (constant_random (1 # 2)) (constant_random (17 # 32))).
  - intros k. split; [discriminate | reflexivity].
  - intros k. split; [discriminate | reflexivity].
  - vm_compute. reflexivity.
  - lia.
Defined.

(** ** Installing it *)

(** X17. Once the inline script has run, [crypto.randomUUID] is a function,
    whatever the page started with (no [crypto] at all, a [crypto] without
    the member, or one whose member is not a function); a member that already
    was a function is left in place, so running the script again changes
    nothing.  The variant of the script that does not create [crypto] does
    the same where [crypto] exists and nothing where it does not. *)
Theorem install_polyfill_result (crypto : option Member) :
  (exists m, install_polyfill crypto = Some m /\ is_function m = true) /\
  install_polyfill crypto
  = match crypto with
    | Some m => if is_function m then Some m else Some Polyfilled
    | None => Some Polyfilled
    end /\
  install_polyfill (install_polyfill crypto) = install_polyfill crypto /\
  install_polyfill_guarded crypto
  = match crypto with
    | Some _ => install_polyfill crypto
    | None => None
    end.
Proof.
  destruct crypto as [[| v | |] |]; cbn; repeat split; eexists; split;
    reflexivity.
Qed.

(** * The backend launcher *)

Lemma param_default_nonempty (value : option string) (fallback : string) :
  fallback <> "" -> param_default value fallback <> "".
Proof.
  intros Hfb. destruct value as [v |]; cbn; [| exact Hfb].
  destruct (String.eqb_spec v ""); assumption.
Qed.

Lemma test_z_false (value : option string) :
  test_z value = false <-> exists v, value = Some v /\ v <> "".
Proof.
  destruct value as [v |]; cbn.
  - rewrite String.eqb_neq. split.
    + intros Hv. exists v. split; [reflexivity | exact Hv].
    + intros (v' & [= <-] & Hv). exact Hv.
  - split; [discriminate | intros (v & Hv & _); discriminate Hv].
Qed.

(** X18. The server is started only when [uv] is found and
    [OPENAI_API_KEY] is set to a non-empty value in the environment as it is
    after [.env] has been loaded; in every other case the script runs no
    command at all and exits with status 1. *)
Theorem run_backend_guard
    (has_uv : gmap string string -> bool)
    (dotenv : option (gmap string string)) (env : gmap string string) :
  let env' := match dotenv with Some a => a ∪ env | None => env end in
  match launched (run_backend has_uv dotenv env) with
  | Some _ =>
      has_uv env' = true /\
      (exists key, env' !! "OPENAI_API_KEY" = Some key /\ key <> "") /\
      ending (run_backend has_uv dotenv env) = ServerStatus
  | None =>
      (has_uv env' = false \/ test_z (env' !! "OPENAI_API_KEY") = true) /\
      commands (run_backend has_uv dotenv env) = [] /\
      ending (run_backend has_uv dotenv env) = Exit 1
  end.
Proof.
  unfold run_backend, launched.
  destruct dotenv as [a |]; cbn [fst snd];
    match goal with
    | |- context [has_uv ?e] =>
        destruct (has_uv e) eqn:Huv; cbn [negb];
        [ destruct (test_z (e !! "OPENAI_API_KEY")) eqn:Hkey | ]
    end; cbn [commands ending];
    repeat split; auto; apply test_z_false; assumption.
Qed.

(** X19. The host and the port the server is bound to are the ones the script
    announces, neither is ever empty, and each is the environment's value
    unless that is unset or empty, in which case it is [127.0.0.1] and
    [8000]. *)
Theorem run_backend_address
    (has_uv : gmap string string -> bool)
    (dotenv : option (gmap string string)) (env : gmap string string)
    (host port : string) :
  launched (run_backend has_uv dotenv env) = Some (host, port) ->
  let env' := match dotenv with Some a => a ∪ env | None => env end in
  last (printed (run_backend has_uv dotenv env))
  = Some (starting_line host port) /\
  host = param_default (env' !! "BACKEND_HOST") "127.0.0.1" /\
  port = param_default (env' !! "BACKEND_PORT") "8000" /\
  host <> "" /\ port <> "".
Proof.
  unfold run_backend, launched.
  destruct dotenv as [a |]; cbn [fst snd];
    match goal with
    | |- context [has_uv ?e] =>
        destruct (has_uv e); cbn [negb commands]; [| discriminate];
        destruct (test_z (e !! "OPENAI_API_KEY")); cbn [commands];
        [discriminate |]
    end;
    intros [= <- <-]; cbn [printed]; rewrite ?last_app; cbn [last];
    repeat split; try reflexivity;
    apply param_default_nonempty; discriminate.
Qed.

Lemma run_backend_address_witness :
  last (printed (run_backend uv_everywhere None
                   {[ "OPENAI_API_KEY" := "sk-test"; "BACKEND_PORT" := "" ]}))
  = Some (starting_line "127.0.0.1" "8000") /\
  "127.0.0.1"
  = param_default
      (({[ "OPENAI_API_KEY" := "sk-test"; "BACKEND_PORT" := "" ]}
        : gmap string string) !! "BACKEND_HOST") "127.0.0.1" /\
  "8000"
  = param_default
      (({[ "OPENAI_API_KEY" := "sk-test"; "BACKEND_PORT" := "" ]}
        : gmap string string) !! "BACKEND_PORT") "8000" /\
  "127.0.0.1" <> "" /\ "8000" <> "".
Proof.
  apply (run_backend_address uv_everywhere None
           {[ "OPENAI_API_KEY" := "sk-test"; "BACKEND_PORT" := "" ]}
           "127.0.0.1" "8000").
  vm_compute. reflexivity.
Defined.

(** X20. What [.env] assigns wins over the environment the script was started
    with: a key given only in [.env] is enough to start the server, and a
    port given in [.env] is the one used. *)
Theorem run_backend_dotenv_wins
    (has_uv : gmap string string -> bool)
    (assignments env : gmap string string) (key port : string) :
  has_uv (assignments ∪ env) = true ->
  assignments !! "OPENAI_API_KEY" = Some key -> key <> "" ->
  assignments !! "BACKEND_PORT" = Some port -> port <> "" ->
  exists host,
    launched (run_backend has_uv (Some assignments) env) = Some (host, port).
Proof.
  intros Huv Hkey Hkey_ne Hport Hport_ne.
  unfold run_backend, launched. cbn [fst snd]. rewrite Huv. cbn [negb].
  rewrite (lookup_union_Some_l _ _ _ _ Hkey).
  rewrite (lookup_union_Some_l _ _ _ _ Hport).
  cbn [test_z param_default].
  apply String.eqb_neq in Hkey_ne, Hport_ne. rewrite Hkey_ne, Hport_ne.
  cbn [commands]. eexists. reflexivity.
Qed.

Lemma run_backend_dotenv_wins_witness :
  exists host,
    launched
      (run_backend uv_everywhere
         (Some {[ "OPENAI_API_KEY" := "sk-test"; "BACKEND_PORT" := "9000" ]})
         {[ "OPENAI_API_KEY" := ""; "BACKEND_PORT" := "8087" ]})
    = Some (host, "9000").
Proof.
  apply (run_backend_dotenv_wins uv_everywhere
           {[ "OPENAI_API_KEY" := "sk-test"; "BACKEND_PORT" := "9000" ]}
           {[ "OPENAI_API_KEY" := ""; "BACKEND_PORT" := "8087" ]}
           "sk-test" "9000").
  - reflexivity.
  - vm_compute. reflexivity.
  - discriminate.
  - vm_compute. reflexivity.
  - discriminate.
Defined.
